(** * Mongo repositories of [justai.frameworks_and_drivers]

    A shallow embedding of [mongo_repositories.py]: the three repository
    classes [MongoAgentRepository], [MongoConversationRepository] and
    [MongoBackupRepository], each a thin layer of single calls on a pymongo
    collection.  The collection is modelled as an ordered list of BSON
    documents; every repository method is a computation in a small
    state-and-exception monad over that collection. *)

From Stdlib Require Import List String Ascii Bool NArith Arith Lia.
Import ListNotations.
Local Open Scope string_scope.

Set Implicit Arguments.

(* ================================================================== *)
(** ** BSON values and documents *)

(** The values a stored document holds.  An [ObjectId] is kept as a
    number: below [2 ^ 96] the number its twelve bytes spell (see
    [ObjectId] for the shorter ones the constructor lets through); a Python
    [dict] is an association list whose keys occur once, in insertion
    order. *)
#[warnings="-register-all"]
Inductive value : Type :=
| VNull
| VStr (s : string)
| VOid (o : N)
| VArr (l : list value)
| VDoc (d : list (string * value)).

Definition document := list (string * value).

Fixpoint value_eqb (a b : value) {struct a} : bool :=
  match a, b with
  | VNull, VNull => true
  | VStr s, VStr t => String.eqb s t
  | VOid o, VOid p => N.eqb o p
  | VArr l, VArr m =>
      (fix arr_eqb (l : list value) (m : list value) {struct l} : bool :=
         match l, m with
         | [], [] => true
         | x :: l', y :: m' => value_eqb x y && arr_eqb l' m'
         | _, _ => false
         end) l m
  | VDoc d, VDoc e =>
      (fix doc_eqb (d : list (string * value)) (e : list (string * value))
           {struct d} : bool :=
         match d, e with
         | [], [] => true
         | (k, x) :: d', (j, y) :: e' =>
             String.eqb k j && value_eqb x y && doc_eqb d' e'
         | _, _ => false
         end) d e
  | _, _ => false
  end.

(** [document[key]] / [document.get(key)]. *)
Fixpoint lookup (k : string) (d : document) : option value :=
  match d with
  | [] => None
  | (j, v) :: d' => if String.eqb j k then Some v else lookup k d'
  end.

(** [document[key] = v]: an existing key keeps its place, a new key goes
    last. *)
Fixpoint set_field (k : string) (v : value) (d : document) : document :=
  match d with
  | [] => [(k, v)]
  | (j, w) :: d' =>
      if String.eqb j k then (j, v) :: d' else (j, w) :: set_field k v d'
  end.

(* ================================================================== *)
(** ** [bson.ObjectId] and its string form *)

Definition hex_value (c : ascii) : option N :=
  let n := N_of_ascii c in
  if (48 <=? n)%N && (n <=? 57)%N then Some (n - 48)%N
  else if (97 <=? n)%N && (n <=? 102)%N then Some (n - 87)%N
  else if (65 <=? n)%N && (n <=? 70)%N then Some (n - 55)%N
  else None.

Definition is_hex_digit (c : ascii) : bool :=
  match hex_value c with Some _ => true | None => false end.

Fixpoint string_forallb (p : ascii -> bool) (s : string) : bool :=
  match s with
  | EmptyString => true
  | String c s' => p c && string_forallb p s'
  end.

(** A string of 24 hexadecimal digits. *)
Definition is_objectid_string (s : string) : bool :=
  Nat.eqb (String.length s) 24 && string_forallb is_hex_digit s.

(** The ASCII whitespace [bytes.fromhex] skips: tab, line feed, vertical
    tab, form feed, carriage return and space. *)
Definition is_space (c : ascii) : bool :=
  let n := N_of_ascii c in
  ((9 <=? n)%N && (n <=? 13)%N) || (n =? 32)%N.

(** [bytes.fromhex(s)]: whitespace is skipped before each byte, a byte is
    two adjacent hex digits; anything else is an error ([None]).  The
    result is the number of bytes read and the number they spell, counted
    on from [count] and [acc]. *)
Fixpoint fromhex (s : string) (count acc : N) : option (N * N) :=
  match s with
  | EmptyString => Some (count, acc)
  | String c s' =>
      if is_space c then fromhex s' count acc
      else
        match hex_value c with
        | None => None
        | Some top =>
            match s' with
            | EmptyString => None
            | String c2 s'' =>
                match hex_value c2 with
                | None => None
                | Some bot =>
                    fromhex s'' (count + 1)%N (256 * acc + 16 * top + bot)%N
                end
            end
        end
  end.

(** The strings [bytes.fromhex] reads: two-digit bytes, with whitespace
    before, between and after them. *)
Inductive hex_pairs : string -> Prop :=
| hex_pairs_nil : hex_pairs EmptyString
| hex_pairs_space : forall c s,
    is_space c = true -> hex_pairs s -> hex_pairs (String c s)
| hex_pairs_byte : forall c1 c2 s,
    is_hex_digit c1 = true -> is_hex_digit c2 = true -> hex_pairs s ->
    hex_pairs (String c1 (String c2 s)).

(** [ObjectId(s)] for a string, as [bson.objectid] builds it: the length
    must be 24, then the bytes are [bytes.fromhex(s)]; [None] stands for
    the constructor raising [InvalidId].  Twenty-four hex digits give
    twelve bytes, kept as the number they spell.  A string of length 24
    with whitespace between its bytes is let through as well and gives an
    identifier of [n < 12] bytes, kept apart from every twelve-byte
    identifier as [(n + 1) * 2 ^ 96] plus the number its bytes spell. *)
Definition ObjectId (s : string) : option N :=
  if Nat.eqb (String.length s) 24 then
    match fromhex s 0 0 with
    | Some (n, v) =>
        Some (if (n =? 12)%N then v else (2 ^ 96 * (n + 1) + v)%N)
    | None => None
    end
  else None.

Definition hex_digit (n : N) : ascii :=
  if (n <? 10)%N then ascii_of_N (48 + n) else ascii_of_N (87 + n).

(** The [k] low hex digits of [n], most significant first. *)
Fixpoint to_hex (k : nat) (n : N) (tail : string) : string :=
  match k with
  | O => tail
  | S k' => to_hex k' (n / 16)%N (String (hex_digit (n mod 16)%N) tail)
  end.

(** [str(ObjectId)]: the bytes in lower-case hex, 24 digits for a
    twelve-byte identifier. *)
Definition oid_str (o : N) : string :=
  if (o <? 2 ^ 96)%N then to_hex 24 o EmptyString
  else to_hex (2 * N.to_nat (o / 2 ^ 96 - 1)) (o mod 2 ^ 96) EmptyString.

(* ================================================================== *)
(** ** Exceptions and the state-and-exception monad *)

(** The exceptions the modelled calls raise.  [Unmodelled] is not a Python
    exception: it marks a stored value outside the entity types of the
    data model (a role that is not a string, the [str] of an embedded
    document), which Python would carry along untyped. *)
Inductive exn : Type :=
| ValueError (msg : string)
| DuplicateKeyError
| BulkWriteError
| InvalidId
| WriteError
| KeyError (k : string)
| TypeError
| Unmodelled.

Inductive outcome (A : Type) : Type :=
| Ok (a : A)
| Raise (e : exn).
Arguments Raise {A} e.

(** A collection is the ordered list of its documents (natural order is
    insertion order). *)
Definition collection := list document.

(** A method run against [self.collection]: its outcome and the
    collection it leaves behind, also when it raises. *)
Definition M (A : Type) : Type := collection -> outcome A * collection.

Definition ret {A} (a : A) : M A := fun st => (Ok a, st).

Definition raise {A} (e : exn) : M A := fun st => (Raise e, st).

Definition bind {A B} (m : M A) (f : A -> M B) : M B :=
  fun st =>
    match m st with
    | (Ok a, st') => f a st'
    | (Raise e, st') => (Raise e, st')
    end.

(** [try: m except e: h]. *)
Definition try_except {A} (m : M A) (handles : exn -> bool) (h : M A) : M A :=
  fun st =>
    match m st with
    | (Raise e, st') => if handles e then h st' else (Raise e, st')
    | r => r
    end.

Definition lift {A} (r : outcome A) : M A := fun st => (r, st).

Declare Scope repo_scope.
Delimit Scope repo_scope with repo.
Notation "x <- m ;; k" := (bind m (fun x => k))
  (at level 61, m at next level, right associativity) : repo_scope.

(** A list comprehension whose body may raise. *)
Fixpoint traverse {A B} (f : A -> outcome B) (l : list A) : outcome (list B) :=
  match l with
  | [] => Ok []
  | x :: l' =>
      match f x with
      | Raise e => Raise e
      | Ok y =>
          match traverse f l' with
          | Raise e => Raise e
          | Ok ys => Ok (y :: ys)
          end
      end
  end.

(* ================================================================== *)
(** ** The pymongo collection calls the repositories use *)

(** A filter document [{k1: v1, ..., kn: vn}] of equality conditions. *)
Definition query := list (string * value).

(** A stored value satisfies an equality condition when it is the queried
    value or an array that holds it. *)
Definition value_matches (v q : value) : bool :=
  value_eqb v q
  || match v with
     | VArr l => existsb (fun e => value_eqb e q) l
     | _ => false
     end.

(** A missing field satisfies only the condition [{k: null}]. *)
Definition cond_holds (d : document) (c : string * value) : bool :=
  match lookup (fst c) d with
  | Some v => value_matches v (snd c)
  | None => value_eqb (snd c) VNull
  end.

Definition matches (q : query) (d : document) : bool :=
  forallb (cond_holds d) q.

Definition find_one (q : query) : M (option document) :=
  fun st => (Ok (List.find (matches q) st), st).

Definition find (q : query) : M (list document) :=
  fun st => (Ok (List.filter (matches q) st), st).

(** The key a document contributes to an index on field [k]. *)
Definition index_key (k : string) (d : document) : value :=
  match lookup k d with
  | Some v => v
  | None => VNull
  end.

Definition oid_of (d : document) : N :=
  match lookup "_id" d with
  | Some (VOid o) => o
  | _ => 0%N
  end.

(** The driver's [ObjectId()] for a document inserted without [_id].
    The driver generates identifiers that do not repeat; here it is the
    successor of the largest one in the collection. *)
Definition fresh_oid (st : collection) : N :=
  N.succ (fold_right (fun d m => N.max (oid_of d) m) 0%N st).

(** [d] collides with [e] on the unique indexes [idx] (the [_id] index
    is always there). *)
Definition collides (idx : list string) (d e : document) : bool :=
  existsb (fun k => value_eqb (index_key k e) (index_key k d)) ("_id" :: idx).

(** [collection.insert_one(d)] on a collection with unique indexes [idx]. *)
Definition insert_one (idx : list string) (d : document) : M unit :=
  fun st =>
    match lookup "_id" d with
    | Some (VArr _) => (Raise WriteError, st)
    | id =>
        let d' := match id with
                  | Some _ => d
                  | None => ("_id", VOid (fresh_oid st)) :: d
                  end in
        if existsb (collides idx d') st
        then (Raise DuplicateKeyError, st)
        else (Ok tt, (st ++ [d'])%list)
    end.

(** The ordered bulk insert: documents go in one by one, the first
    failure stops the batch and what went in before stays. *)
Fixpoint insert_each (idx : list string) (ds : list document) : M unit :=
  match ds with
  | [] => ret tt
  | d :: ds' =>
      fun st =>
        match insert_one idx d st with
        | (Ok _, st') => insert_each idx ds' st'
        | (Raise _, st') => (Raise BulkWriteError, st')
        end
  end.

(** [collection.insert_many(ds)]; pymongo refuses an empty batch with a
    [TypeError] ("documents must be a non-empty list"). *)
Definition insert_many (idx : list string) (ds : list document) : M unit :=
  match ds with
  | [] => raise TypeError
  | _ => insert_each idx ds
  end.

(** The two shapes of [$set] the repositories send: a top-level field,
    and [arr.$[elem].k] under the array filter [{elem.<c>: <v>}]. *)
Inductive set_op : Type :=
| SetField (k : string) (v : value)
| SetInArray (arr : string) (filt : string * value) (k : string) (v : value).

Definition set_in_elem (filt : string * value) (k : string) (v : value)
    (e : value) : value :=
  match e with
  | VDoc m => if cond_holds m filt then VDoc (set_field k v m) else e
  | _ => e
  end.

(** One [$set] entry on one document; [None] is the server's write error
    (the array path is missing or is not an array). *)
Definition apply_set (op : set_op) (d : document) : option document :=
  match op with
  | SetField k v => Some (set_field k v d)
  | SetInArray arr filt k v =>
      match lookup arr d with
      | Some (VArr l) =>
          Some (set_field arr (VArr (map (set_in_elem filt k v) l)) d)
      | _ => None
      end
  end.

Fixpoint apply_sets (ops : list set_op) (d : document) : option document :=
  match ops with
  | [] => Some d
  | op :: ops' =>
      match apply_set op d with
      | Some d' => apply_sets ops' d'
      | None => None
      end
  end.

(** [collection.update_one(q, {"$set": ops})]: the first match only. *)
Fixpoint update_one (q : query) (ops : list set_op) (st : collection)
  : outcome unit * collection :=
  match st with
  | [] => (Ok tt, [])
  | d :: st' =>
      if matches q d then
        match apply_sets ops d with
        | Some d' => (Ok tt, d' :: st')
        | None => (Raise WriteError, d :: st')
        end
      else
        let (r, st'') := update_one q ops st' in (r, d :: st'')
  end.

(** [collection.update_many(q, {"$set": ops}, array_filters=...)]: every
    match in turn; a write error stops the pass and earlier documents stay
    updated. *)
Fixpoint update_many (q : query) (ops : list set_op) (st : collection)
  : outcome unit * collection :=
  match st with
  | [] => (Ok tt, [])
  | d :: st' =>
      if matches q d then
        match apply_sets ops d with
        | Some d' => let (r, st'') := update_many q ops st' in (r, d' :: st'')
        | None => (Raise WriteError, d :: st')
        end
      else
        let (r, st'') := update_many q ops st' in (r, d :: st'')
  end.

(** The collection cut at the first document that satisfies [p]. *)
Fixpoint split_first (p : document -> bool) (st : collection)
  : option (collection * document * collection) :=
  match st with
  | [] => None
  | d :: st' =>
      if p d then Some ([], d, st')
      else match split_first p st' with
           | Some (pre, e, post) => Some (d :: pre, e, post)
           | None => None
           end
  end.

(** [d] has, on one of the unique indexes [idx], the key of a document of
    [others]. *)
Definition key_taken (idx : list string) (d : document) (others : collection)
  : bool :=
  existsb (fun e => existsb (fun k => value_eqb (index_key k e) (index_key k d)) idx)
          others.

(** [collection.update_one(q, {"$set": ops})] on a collection with unique
    indexes [idx]: the first match is rewritten unless the rewritten
    document takes the key of another one. *)
Definition update_one_unique (idx : list string) (q : query) (ops : list set_op)
  : M unit :=
  fun st =>
    match split_first (matches q) st with
    | None => (Ok tt, st)
    | Some (pre, d, post) =>
        match apply_sets ops d with
        | None => (Raise WriteError, st)
        | Some d' =>
            if key_taken idx d' (pre ++ post)%list
            then (Raise DuplicateKeyError, st)
            else (Ok tt, (pre ++ d' :: post)%list)
        end
    end.

Fixpoint remove_first (p : document -> bool) (st : collection) : collection :=
  match st with
  | [] => []
  | d :: st' => if p d then st' else d :: remove_first p st'
  end.

Definition delete_one (q : query) : M unit :=
  fun st => (Ok tt, remove_first (matches q) st).

Definition delete_many (q : query) : M unit :=
  fun st => (Ok tt, List.filter (fun d => negb (matches q d)) st).

(* ================================================================== *)
(** ** Entities *)

(** Modelled from the spec: the entity classes [Agent], [Message] and
    [Conversation] of [justai.entities] (data model: an agent is a name, a
    system prompt and an ordered sequence of prompts; a message is a role
    and a content, both strings; a conversation is an agent name, an
    ordered sequence of messages and an optional identifier). *)
Record Agent : Type := mkAgent {
  name : string;
  system_prompt : string;
  dataset_generation_prompts : list string
}.

Record Message : Type := mkMessage {
  role : string;
  content : string
}.

(** The identifiers a conversation carries at the domain boundary: the
    string form the read paths build, or the store-native [ObjectId] that
    [get_by_id] hands back. *)
Inductive ident : Type :=
| IdStr (s : string)
| IdOid (o : N).

Record Conversation : Type := mkConversation {
  agent_name : string;
  messages : list Message;
  id : option ident
}.

Definition value_of_ident (i : ident) : value :=
  match i with
  | IdStr s => VStr s
  | IdOid o => VOid o
  end.

(** [str(i)], as the f-strings of the error messages print it. *)
Definition ident_str (i : ident) : string :=
  match i with
  | IdStr s => s
  | IdOid o => oid_str o
  end.

(** Python truthiness of [conversation.id]: [None] and the empty string
    are false. *)
Definition id_is_set (i : option ident) : bool :=
  match i with
  | None => false
  | Some (IdStr EmptyString) => false
  | Some _ => true
  end.

(** Modelled from the spec: the document form of a message inside the
    embedded array, [{"role": ..., "content": ...}]. *)
Definition message_doc (m : Message) : value :=
  VDoc [("role", VStr (role m)); ("content", VStr (content m))].

Definition messages_value (ms : list Message) : value :=
  VArr (map message_doc ms).

(* ================================================================== *)
(** ** Reading stored values back into entities *)

Definition obind {A B} (r : outcome A) (f : A -> outcome B) : outcome B :=
  match r with
  | Ok a => f a
  | Raise e => Raise e
  end.

Notation "x <~ r ;; k" := (obind r (fun x => k))
  (at level 61, r at next level, right associativity) : repo_scope.

Local Open Scope repo_scope.

(** [v[k]] with a string key. *)
Definition subscript (k : string) (v : value) : outcome value :=
  match v with
  | VDoc d =>
      match lookup k d with
      | Some x => Ok x
      | None => Raise (KeyError k)
      end
  | _ => Raise TypeError
  end.

(** [for x in v]: a list yields its elements, a string its characters, a
    dict its keys. *)
Definition iterate (v : value) : outcome (list value) :=
  match v with
  | VArr l => Ok l
  | VStr s => Ok (map (fun c => VStr (String c EmptyString)) (list_ascii_of_string s))
  | VDoc d => Ok (map (fun kv => VStr (fst kv)) d)
  | _ => Raise TypeError
  end.

(** The entity fields are strings; a stored value of another kind does
    not fit the entity and is reported as [Unmodelled]. *)
Definition as_string (v : value) : outcome string :=
  match v with
  | VStr s => Ok s
  | _ => Raise Unmodelled
  end.

(** [str(doc['_id'])]. *)
Definition py_str (v : value) : outcome string :=
  match v with
  | VStr s => Ok s
  | VOid o => Ok (oid_str o)
  | VNull => Ok "None"
  | _ => Raise Unmodelled
  end.

(** [Message(message_doc['role'], message_doc['content'])]. *)
Definition message_of_value (e : value) : outcome Message :=
  r <~ subscript "role" e ;;
  c <~ subscript "content" e ;;
  r' <~ as_string r ;;
  c' <~ as_string c ;;
  Ok (mkMessage r' c').

(** [[Message(...) for message_doc in doc['messages']]]. *)
Definition messages_of_doc (d : document) : outcome (list Message) :=
  ms <~ subscript "messages" (VDoc d) ;;
  l <~ iterate ms ;;
  traverse message_of_value l.

(** The body of the loops of [get_by_agent_name] and [get_all]. *)
Definition conversation_of_doc (d : document) : outcome Conversation :=
  n <~ subscript "agent_name" (VDoc d) ;;
  n' <~ as_string n ;;
  ms <~ messages_of_doc d ;;
  i <~ subscript "_id" (VDoc d) ;;
  i' <~ py_str i ;;
  Ok (mkConversation n' ms (Some (IdStr i'))).

(** [document["_id"]] as the identifier of the conversation built by
    [get_by_id]. *)
Definition ident_of_value (v : value) : outcome ident :=
  match v with
  | VStr s => Ok (IdStr s)
  | VOid o => Ok (IdOid o)
  | _ => Raise Unmodelled
  end.

(** Python truthiness of what [find_one] returns: [None] and the empty
    dict are false. *)
Definition found (r : option document) : option document :=
  match r with
  | Some ((_ :: _) as d) => Some d
  | _ => None
  end.

(* ================================================================== *)
(** ** [class MongoAgentRepository] *)

Module MongoAgentRepository.

(** Modelled from the spec: the [agent] collection carries a unique
    index on [name] (the source relies on it through
    [DuplicateKeyError] but does not create it). *)
Definition indexes : list string := ["name"].

Definition agent_document (a : Agent) : document :=
  [("name", VStr (name a));
   ("system_prompt", VStr (system_prompt a));
   ("dataset_generation_prompts",
    VArr (map VStr (dataset_generation_prompts a)))].

Definition agent_of_doc (d : document) : outcome Agent :=
  n <~ subscript "name" (VDoc d) ;;
  p <~ subscript "system_prompt" (VDoc d) ;;
  g <~ subscript "dataset_generation_prompts" (VDoc d) ;;
  n' <~ as_string n ;;
  p' <~ as_string p ;;
  g' <~ match g with
        | VArr l => traverse as_string l
        | _ => Raise Unmodelled
        end ;;
  Ok (mkAgent n' p' g').

Definition get_by_name (agent_name : string) : M (option Agent) :=
  document <- find_one [("name", VStr agent_name)] ;;
  match found document with
  | Some d => a <- lift (agent_of_doc d) ;; ret (Some a)
  | None => ret None
  end.

Definition is_duplicate_key (e : exn) : bool :=
  match e with
  | DuplicateKeyError => true
  | _ => false
  end.

Definition create (agent : Agent) : M unit :=
  try_except
    (insert_one indexes (agent_document agent))
    is_duplicate_key
    (raise (ValueError ("Agent with name " ++ name agent ++ " already exists."))).

Definition update (current_agent updated_agent : Agent) : M unit :=
  update_one_unique indexes
    [("name", VStr (name current_agent))]
    [SetField "name" (VStr (name updated_agent));
     SetField "system_prompt" (VStr (system_prompt updated_agent));
     SetField "dataset_generation_prompts"
              (VArr (map VStr (dataset_generation_prompts updated_agent)))].

Definition delete (agent : Agent) : M unit :=
  delete_one [("name", VStr (name agent))].

Definition get_all : M (list Agent) :=
  cursor <- find [] ;;
  lift (traverse agent_of_doc cursor).

End MongoAgentRepository.

(* ================================================================== *)
(** ** [class MongoConversationRepository] *)

Module MongoConversationRepository.

(** The [conversation] collection has the [_id] index only. *)
Definition indexes : list string := [].

Definition create (conversation : Conversation) : M unit :=
  if id_is_set (id conversation) then
    let i := match id conversation with
             | Some i => value_of_ident i
             | None => VNull
             end in
    existing <- find_one [("id", i)] ;;
    match found existing with
    | Some _ =>
        raise (ValueError
                 ("Conversation with id "
                  ++ match id conversation with
                     | Some j => ident_str j
                     | None => "None"
                     end
                  ++ " already exists."))
    | None =>
        insert_one indexes
          [("_id", i);
           ("agent_name", VStr (agent_name conversation));
           ("messages", messages_value (messages conversation))]
    end
  else
    insert_one indexes
      [("agent_name", VStr (agent_name conversation));
       ("messages", messages_value (messages conversation))].

Definition get_by_agent_name (agent_name : string) : M (list Conversation) :=
  cursor <- find [("agent_name", VStr agent_name)] ;;
  lift (traverse conversation_of_doc cursor).

Definition update_agent_field (current_agent updated_agent : Agent) : M unit :=
  update_many
    [("agent_name", VStr (name current_agent))]
    [SetField "agent_name" (VStr (name updated_agent));
     SetInArray "messages" ("role", VStr "system")
                "content" (VStr (system_prompt updated_agent))].

Definition delete_by_agent_name (agent_name : string) : M unit :=
  delete_many [("agent_name", VStr agent_name)].

Definition delete_by_agent_object (agent : Agent) : M unit :=
  delete_many [("agent_name", VStr (name agent));
               ("agent_prompt", VStr (system_prompt agent))].

Definition delete_by_id (conversation_id : string) : M unit :=
  match ObjectId conversation_id with
  | None => raise InvalidId
  | Some o => delete_one [("_id", VOid o)]
  end.

Definition recover (conversations : list document) : M unit :=
  insert_many indexes conversations.

Definition get_all : M (list Conversation) :=
  cursor <- find [] ;;
  lift (traverse conversation_of_doc cursor).

Definition get_by_id (conversation_id : string) : M Conversation :=
  match ObjectId conversation_id with
  | None => raise InvalidId
  | Some o =>
      document <- find_one [("_id", VOid o)] ;;
      match found document with
      | Some d =>
          lift (ms <~ messages_of_doc d ;;
                n <~ subscript "agent_name" (VDoc d) ;;
                i <~ subscript "_id" (VDoc d) ;;
                n' <~ as_string n ;;
                i' <~ ident_of_value i ;;
                Ok (mkConversation n' ms (Some i')))
      | None =>
          raise (ValueError
                   ("Conversation with id " ++ conversation_id
                    ++ " does not exist."))
      end
  end.

Definition update (current_conversation updated_conversation : Conversation)
  : M unit :=
  update_one
    [("_id", match id current_conversation with
             | Some i => value_of_ident i
             | None => VNull
             end)]
    [SetField "agent_name" (VStr (agent_name updated_conversation));
     SetField "messages" (messages_value (messages updated_conversation))].

End MongoConversationRepository.

(* ================================================================== *)
(** ** [class MongoBackupRepository] *)

(** [Union[List[Conversation], Conversation]]. *)
Inductive conversations_arg : Type :=
| Single (c : Conversation)
| Several (cs : list Conversation).

Module MongoBackupRepository.

Definition indexes : list string := [].

Section WithToDict.

(** [Conversation.to_dict] lives with the entity, outside this file:
    it is a parameter here. *)
Variable to_dict : Conversation -> document.

Definition backup_conversations (conversations : conversations_arg) : M unit :=
  match conversations with
  | Several cs => insert_many indexes (map to_dict cs)
  | Single c => insert_one indexes (to_dict c)
  end.

End WithToDict.

Definition get_conversations_by_agent_object (agent : Agent) : M (list document) :=
  find [("agent_name", VStr (name agent))].

Definition delete_conversations_by_agent_object (agent : Agent) : M unit :=
  delete_many [("agent_name", VStr (name agent))].

End MongoBackupRepository.

(** Modelled from the spec: [Conversation.to_dict], the document form of a
    conversation that carries no identifier (a backup record is a snapshot
    of the same shape, with no identifier correlation). *)
Definition to_dict (c : Conversation) : document :=
  [("agent_name", VStr (agent_name c));
   ("messages", messages_value (messages c))].

(* ================================================================== *)
(** ** Stores written by the conversation repository *)

(** The calls of the conversation repository other than [recover] (which
    takes raw documents from outside). *)
Inductive conversation_call : Type :=
| CallCreate (c : Conversation)
| CallUpdate (current updated : Conversation)
| CallUpdateAgentField (current updated : Agent)
| CallDeleteByAgentName (n : string)
| CallDeleteByAgentObject (a : Agent)
| CallDeleteById (s : string).

(** The collection a call leaves behind, whether it returns or raises. *)
Definition run_call (c : conversation_call) (st : collection) : collection :=
  match c with
  | CallCreate c => snd (MongoConversationRepository.create c st)
  | CallUpdate cur upd => snd (MongoConversationRepository.update cur upd st)
  | CallUpdateAgentField cur upd =>
      snd (MongoConversationRepository.update_agent_field cur upd st)
  | CallDeleteByAgentName n =>
      snd (MongoConversationRepository.delete_by_agent_name n st)
  | CallDeleteByAgentObject a =>
      snd (MongoConversationRepository.delete_by_agent_object a st)
  | CallDeleteById s => snd (MongoConversationRepository.delete_by_id s st)
  end.

(** The collections reachable from the empty one through those calls. *)
Inductive written : collection -> Prop :=
| written_empty : written []
| written_step : forall c st, written st -> written (run_call c st).

(** What [update_agent_field] is to do to one conversation, in entity
    terms. *)
Definition retarget_message (updated : Agent) (m : Message) : Message :=
  if String.eqb (role m) "system"
  then mkMessage (role m) (system_prompt updated)
  else m.


(** A query selects nothing in a collection. *)
Definition selects_none (q : query) (st : collection) : Prop :=
  forall d, In d st -> matches q d = false.

(** Some stored record has [v] as its record identifier. *)
Definition has_record_id (v : value) (st : collection) : Prop :=
  exists d, In d st /\ lookup "_id" d = Some v.

(** Some stored agent record has the name [n]. *)
Definition has_agent_named (n : string) (st : collection) : Prop :=
  exists d, In d st /\ lookup "name" d = Some (VStr n).

(** No stored record has an identifier whose string form is [s]. *)
Definition no_record_with_id (s : string) (st : collection) : Prop :=
  forall d v, In d st -> lookup "_id" d = Some v -> py_str v <> Ok s.

(** An archive document for [c]: its document form [to_dict c] under a
    generated identifier. *)
Definition archived (to_dict : Conversation -> document)
    (d : document) (c : Conversation) : Prop :=
  exists o, d = ("_id", VOid o) :: to_dict c.

(** The top-level field a [$set] entry writes. *)
Definition set_target (op : set_op) : string :=
  match op with
  | SetField k _ => k
  | SetInArray arr _ _ _ => arr
  end.

(** No document of the collection has the field [k]. *)
Definition field_absent (k : string) (st : collection) : Prop :=
  forall d, In d st -> lookup k d = None.

(** The document [d] stores the conversation [c]: the read paths rebuild
    [c] from it, and its [messages] field is an embedded array. *)
Definition stores (d : document) (c : Conversation) : Prop :=
  conversation_of_doc d = Ok c /\ exists l, lookup "messages" d = Some (VArr l).

(** The document [d] stores the agent [a]: the read paths of the agent
    repository rebuild [a] from it. *)
Definition agent_stored (d : document) (a : Agent) : Prop :=
  MongoAgentRepository.agent_of_doc d = Ok a.

(** Every document of the collection stores some conversation. *)
Definition readable (st : collection) : Prop :=
  Forall (fun d => exists c, stores d c) st.

(** The writing calls of the agent repository. *)
Inductive agent_call : Type :=
| AgentCreate (a : Agent)
| AgentUpdate (current updated : Agent)
| AgentDelete (a : Agent).

Definition run_agent_call (c : agent_call) (st : collection) : collection :=
  match c with
  | AgentCreate a => snd (MongoAgentRepository.create a st)
  | AgentUpdate cur upd => snd (MongoAgentRepository.update cur upd st)
  | AgentDelete a => snd (MongoAgentRepository.delete a st)
  end.

(** The [agent] collections reachable from the empty one. *)
Inductive agents_written : collection -> Prop :=
| agents_written_empty : agents_written []
| agents_written_step : forall c st,
    agents_written st -> agents_written (run_agent_call c st).

(* ================================================================== *)
(** * Properties *)

(** ** Values, documents *)

Section ValueInduction.

Variable P : value -> Prop.
Hypothesis Hnull : P VNull.
Hypothesis Hstr : forall s, P (VStr s).
Hypothesis Hoid : forall o, P (VOid o).
Hypothesis Harr : forall l, Forall P l -> P (VArr l).
Hypothesis Hdoc : forall d, Forall (fun kv => P (snd kv)) d -> P (VDoc d).

Fixpoint value_nested_ind (v : value) : P v :=
  match v with
  | VNull => Hnull
  | VStr s => Hstr s
  | VOid o => Hoid o
  | VArr l =>
      Harr ((fix go (l : list value) : Forall P l :=
               match l with
               | [] => Forall_nil P
               | x :: l' => Forall_cons x (value_nested_ind x) (go l')
               end) l)
  | VDoc d =>
      Hdoc ((fix go (d : list (string * value))
               : Forall (fun kv => P (snd kv)) d :=
               match d with
               | [] => Forall_nil _
               | kv :: d' =>
                   Forall_cons kv (value_nested_ind (snd kv)) (go d')
               end) d)
  end.

End ValueInduction.

Lemma value_eqb_eq : forall a b, value_eqb a b = true <-> a = b.
Proof.
  induction a using value_nested_ind; destruct b; simpl;
    try (split; [discriminate | intros E; discriminate E]);
    try (split; reflexivity).
  - rewrite String.eqb_eq. split; congruence.
  - rewrite N.eqb_eq. split; congruence.
  - revert l0. induction H as [|x l Hx Hl IH]; intros [|y m]; simpl;
      try (split; [discriminate | intros E; discriminate E]);
      try (split; reflexivity).
    rewrite andb_true_iff, Hx, IH. split.
    + intros [-> E]. injection E as ->. reflexivity.
    + intros E. injection E as -> ->. split; reflexivity.
  - revert d0. induction H as [|[k x] d Hx Hd IH]; intros [|[j y] e]; simpl;
      try (split; [discriminate | intros E; discriminate E]);
      try (split; reflexivity).
    simpl in Hx.
    rewrite !andb_true_iff, String.eqb_eq, Hx, IH. split.
    + intros [[-> ->] E]. injection E as ->. reflexivity.
    + intros E. injection E as -> -> ->. repeat split; reflexivity.
Qed.

Lemma value_eqb_refl : forall a, value_eqb a a = true.
Proof. intros a. apply value_eqb_eq. reflexivity. Qed.

Lemma value_eqb_neq : forall a b, value_eqb a b = false <-> a <> b.
Proof.
  intros a b. rewrite <- value_eqb_eq.
  destruct (value_eqb a b); split; congruence.
Qed.

Lemma lookup_set_same : forall k v d, lookup k (set_field k v d) = Some v.
Proof.
  intros k v d. induction d as [|[j w] d IH]; simpl.
  - rewrite String.eqb_refl. reflexivity.
  - destruct (String.eqb j k) eqn:E; simpl; rewrite E; auto.
Qed.

Lemma lookup_set_other : forall k j v d,
  j <> k -> lookup j (set_field k v d) = lookup j d.
Proof.
  intros k j v d Hjk. induction d as [|[i w] d IH]; simpl.
  - destruct (String.eqb k j) eqn:E; auto.
    apply String.eqb_eq in E. congruence.
  - destruct (String.eqb i k) eqn:E; simpl.
    + apply String.eqb_eq in E. subst i.
      destruct (String.eqb k j) eqn:E'; auto.
      apply String.eqb_eq in E'. congruence.
    + destruct (String.eqb i j); auto.
Qed.

Lemma lookup_cons_other : forall k j v d,
  j <> k -> lookup k ((j, v) :: d) = lookup k d.
Proof.
  intros k j v d H. cbn [lookup].
  destruct (String.eqb_spec j k); [congruence | reflexivity].
Qed.

(** ** Matching, finding, removing *)

Lemma find_none_iff : forall (p : document -> bool) st,
  List.find p st = None <-> forall d, In d st -> p d = false.
Proof.
  intros p st. split.
  - intros H d Hd. exact (find_none p st H d Hd).
  - induction st as [|d st IH]; simpl; intros H; auto.
    rewrite (H d (or_introl eq_refl)). apply IH.
    intros e He. apply H. right. exact He.
Qed.

Lemma remove_first_length : forall p st d,
  List.find p st = Some d ->
  S (List.length (remove_first p st)) = List.length st.
Proof.
  intros p st. induction st as [|e st IH]; simpl; intros d H; try discriminate.
  destruct (p e); simpl; auto. f_equal. eapply IH; eauto.
Qed.

Lemma remove_first_fixed_iff : forall p st,
  remove_first p st = st <-> List.find p st = None.
Proof.
  intros p st. split.
  - intros H. destruct (List.find p st) as [d|] eqn:E; auto.
    apply remove_first_length in E. rewrite H in E. lia.
  - induction st as [|e st IH]; simpl; auto.
    destruct (p e); try discriminate. intros H. f_equal. auto.
Qed.

Lemma filter_negb_fixed : forall (p : document -> bool) st,
  (forall d, In d st -> p d = false) ->
  List.filter (fun d => negb (p d)) st = st.
Proof.
  intros p st. induction st as [|e st IH]; simpl; intros H; auto.
  rewrite (H e (or_introl eq_refl)). simpl. f_equal.
  apply IH. intros d Hd. apply H. right. exact Hd.
Qed.

(** ** The [ObjectId] constructor *)

Lemma fromhex_cons : forall c s count acc,
  fromhex (String c s) count acc
  = if is_space c then fromhex s count acc
    else match hex_value c with
         | None => None
         | Some top =>
             match s with
             | EmptyString => None
             | String c2 s'' =>
                 match hex_value c2 with
                 | None => None
                 | Some bot =>
                     fromhex s'' (count + 1)%N (256 * acc + 16 * top + bot)%N
                 end
             end
         end.
Proof. intros c s count acc. destruct s; reflexivity. Qed.

Lemma space_not_hex : forall c, is_space c = true -> hex_value c = None.
Proof.
  intros [[] [] [] [] [] [] [] []]; intros H; try discriminate H; reflexivity.
Qed.

Lemma hex_not_space : forall c, is_hex_digit c = true -> is_space c = false.
Proof.
  intros c H. destruct (is_space c) eqn:E; [|reflexivity].
  unfold is_hex_digit in H. rewrite (space_not_hex c E) in H. discriminate.
Qed.

(** [bytes.fromhex] reads exactly the strings of two-digit bytes and
    whitespace. *)
Lemma fromhex_reads_pairs : forall s,
  hex_pairs s -> forall count acc, exists r, fromhex s count acc = Some r.
Proof.
  intros s H. induction H as [|c s Hc H IH|c1 c2 s H1 H2 H IH]; intros count acc.
  - eexists. reflexivity.
  - rewrite fromhex_cons, Hc. apply IH.
  - rewrite fromhex_cons, (hex_not_space c1 H1).
    unfold is_hex_digit in H1, H2.
    destruct (hex_value c1) as [top|]; [|discriminate].
    destruct (hex_value c2) as [bot|]; [|discriminate].
    apply IH.
Qed.

Lemma fromhex_only_pairs : forall s,
  (forall count acc r, fromhex s count acc = Some r -> hex_pairs s)
  /\ (forall c count acc r,
        fromhex (String c s) count acc = Some r -> hex_pairs (String c s)).
Proof.
  induction s as [|c' s [IH1 IH2]].
  - split; [intros; constructor|].
    intros c count acc r. rewrite fromhex_cons.
    destruct (is_space c) eqn:Ec.
    + intros _. apply hex_pairs_space; [exact Ec | constructor].
    + destruct (hex_value c); discriminate.
  - split; [apply IH2|].
    intros c count acc r. rewrite fromhex_cons.
    destruct (is_space c) eqn:Ec.
    + intros H. apply hex_pairs_space; [exact Ec|]. eapply IH2. exact H.
    + destruct (hex_value c) as [top|] eqn:Et; [|discriminate].
      destruct (hex_value c') as [bot|] eqn:Eb; [|discriminate].
      intros H. apply hex_pairs_byte.
      * unfold is_hex_digit. rewrite Et. reflexivity.
      * unfold is_hex_digit. rewrite Eb. reflexivity.
      * eapply IH1. exact H.
Qed.

Lemma hex_digits_are_pairs : forall s,
  (string_forallb is_hex_digit s = true ->
   Nat.even (String.length s) = true -> hex_pairs s)
  /\ (forall c,
        string_forallb is_hex_digit (String c s) = true ->
        Nat.even (String.length (String c s)) = true ->
        hex_pairs (String c s)).
Proof.
  induction s as [|c' s [IH1 IH2]].
  - split; [intros; constructor|]. intros c _ H. discriminate H.
  - split; [apply IH2|].
    intros c H E. cbn [string_forallb] in H.
    apply andb_true_iff in H. destruct H as [Hc H].
    apply andb_true_iff in H. destruct H as [Hc' H].
    apply hex_pairs_byte; [exact Hc | exact Hc' |].
    apply IH1; [exact H | exact E].
Qed.

(** The constructor rejects a string exactly when its length is not 24 or
    [bytes.fromhex] cannot read it. *)
Lemma ObjectId_none_iff : forall s,
  ObjectId s = None <-> String.length s <> 24 \/ ~ hex_pairs s.
Proof.
  intros s. unfold ObjectId.
  destruct (Nat.eqb_spec (String.length s) 24) as [L|L].
  - destruct (fromhex s 0 0) as [[n v]|] eqn:E.
    + split; [discriminate|]. intros [H|H]; [congruence|].
      exfalso. apply H. eapply (proj1 (fromhex_only_pairs s)). exact E.
    + split; [|reflexivity]. intros _. right. intros H.
      destruct (fromhex_reads_pairs H 0 0) as [r Hr]. congruence.
  - split; [auto | reflexivity].
Qed.

Lemma ObjectId_some_iff : forall s,
  (exists o, ObjectId s = Some o) <-> String.length s = 24 /\ hex_pairs s.
Proof.
  intros s. unfold ObjectId.
  destruct (Nat.eqb_spec (String.length s) 24) as [L|L].
  - destruct (fromhex s 0 0) as [[n v]|] eqn:E.
    + split; [|eauto]. intros _. split; [exact L|].
      eapply (proj1 (fromhex_only_pairs s)). exact E.
    + split; [intros [o H]; discriminate|]. intros [_ H].
      destruct (fromhex_reads_pairs H 0 0) as [r Hr]. congruence.
  - split; [intros [o H]; discriminate | intros [H _]; congruence].
Qed.

(** Twenty-four hex digits are always accepted. *)
Lemma objectid_string_accepted : forall s,
  is_objectid_string s = true -> String.length s = 24 /\ hex_pairs s.
Proof.
  intros s H. unfold is_objectid_string in H.
  apply andb_true_iff in H. destruct H as [L H].
  apply Nat.eqb_eq in L. split; [exact L|].
  apply (proj1 (hex_digits_are_pairs s)); [exact H|]. rewrite L. reflexivity.
Qed.

(** ** Deleting *)

Lemma delete_one_nothing : forall q st,
  selects_none q st -> delete_one q st = (Ok tt, st).
Proof.
  intros q st H. unfold delete_one. f_equal.
  apply remove_first_fixed_iff, find_none_iff. exact H.
Qed.

Lemma delete_many_nothing : forall q st,
  selects_none q st -> delete_many q st = (Ok tt, st).
Proof.
  intros q st H. unfold delete_many. f_equal.
  apply filter_negb_fixed. exact H.
Qed.

(** C10, as the claim states it, fails: the string below has length 24
    but is not 24 hexadecimal digits (whitespace follows each of its eight
    bytes), yet the [ObjectId] constructor accepts it and [delete_by_id]
    reaches the store and returns normally. *)
Lemma delete_by_id_accepts_spaced_hex :
  ~ (is_objectid_string "50 7f 1f 77 bc f8 6c d7 " = false ->
     MongoConversationRepository.delete_by_id "50 7f 1f 77 bc f8 6c d7 " []
     = (Raise InvalidId, [])).
Proof.
  intros H. specialize (H eq_refl). vm_compute in H. discriminate H.
Qed.

(** C10 (amended): [delete_by_id] is not total over strings.  On every
    string the [ObjectId] constructor rejects (its length is not 24, or it
    is not made of two-digit hex bytes separated by ASCII whitespace only)
    it raises [InvalidId] and the collection is the one it started from, no
    store call made; it returns normally with the collection unchanged
    exactly when the constructor accepts the string and the identifier it
    builds selects no record.  Every string of 24 hexadecimal digits is
    accepted. *)
Theorem delete_by_id_not_total : forall s st,
  (String.length s <> 24 \/ ~ hex_pairs s ->
   MongoConversationRepository.delete_by_id s st = (Raise InvalidId, st)) /\
  (MongoConversationRepository.delete_by_id s st = (Ok tt, st) <->
   (String.length s = 24 /\ hex_pairs s) /\
   exists o, ObjectId s = Some o /\ selects_none [("_id", VOid o)] st) /\
  (is_objectid_string s = true -> String.length s = 24 /\ hex_pairs s).
Proof.
  intros s st. unfold MongoConversationRepository.delete_by_id. split; [|split].
  - intros H. apply ObjectId_none_iff in H. rewrite H. reflexivity.
  - split.
    + destruct (ObjectId s) as [o|] eqn:E.
      * intros H. split.
        { apply ObjectId_some_iff. exists o. exact E. }
        exists o. split; [reflexivity|].
        unfold delete_one in H. injection H as H.
        apply remove_first_fixed_iff in H.
        unfold selects_none. apply find_none_iff. exact H.
      * unfold raise. discriminate.
    + intros [_ [o [E H]]]. rewrite E. apply delete_one_nothing. exact H.
  - apply objectid_string_accepted.
Qed.

Lemma delete_by_id_not_total_witness :
  (String.length "missing" <> 24 \/ ~ hex_pairs "missing") /\
  MongoConversationRepository.delete_by_id "missing" [] = (Raise InvalidId, []) /\
  is_objectid_string "507f1f77bcf86cd799439011" = true /\
  hex_pairs "507f1f77bcf86cd799439011".
Proof.
  assert (H : String.length "missing" <> 24 \/ ~ hex_pairs "missing")
    by (left; discriminate).
  split; [exact H|].
  split; [exact (proj1 (delete_by_id_not_total "missing" []) H)|].
  split; [reflexivity|].
  exact (proj2 (proj2 (proj2 (delete_by_id_not_total
                                "507f1f77bcf86cd799439011" [])) eq_refl)).
Defined.

(** C7, as the claim states it, fails: on the empty collection no record
    has the identifier ["missing"], yet [delete_by_id] raises. *)
Lemma deletion_of_unknown_id_raises :
  ~ (no_record_with_id "missing" [] ->
     MongoConversationRepository.delete_by_id "missing" [] = (Ok tt, [])).
Proof.
  intros H. assert (E : no_record_with_id "missing" []).
  { intros d v []. }
  specialize (H E). discriminate H.
Qed.

(** C7 (amended): a delete that selects no record returns normally and
    leaves the collection as it was; for [delete_by_id] this is so for
    every well-formed identifier string whose [ObjectId] no record
    carries. *)
Theorem deletion_idempotence : forall (a : Agent) (n s : string) (o : N)
    (agents conversations : collection),
  (selects_none [("name", VStr (name a))] agents ->
   MongoAgentRepository.delete a agents = (Ok tt, agents)) /\
  (selects_none [("agent_name", VStr n)] conversations ->
   MongoConversationRepository.delete_by_agent_name n conversations
   = (Ok tt, conversations)) /\
  (selects_none [("agent_name", VStr (name a));
                 ("agent_prompt", VStr (system_prompt a))] conversations ->
   MongoConversationRepository.delete_by_agent_object a conversations
   = (Ok tt, conversations)) /\
  (ObjectId s = Some o ->
   selects_none [("_id", VOid o)] conversations ->
   MongoConversationRepository.delete_by_id s conversations
   = (Ok tt, conversations)).
Proof.
  intros a n s o agents conversations. repeat split.
  - apply delete_one_nothing.
  - apply delete_many_nothing.
  - apply delete_many_nothing.
  - intros E H. unfold MongoConversationRepository.delete_by_id.
    rewrite E. apply delete_one_nothing. exact H.
Qed.

Ltac none_selected :=
  let d := fresh "d" in
  let Hd := fresh "Hd" in
  intros d Hd;
  repeat (destruct Hd as [<-|Hd]; [reflexivity|]);
  destruct Hd.

Lemma deletion_idempotence_witness :
  let a := mkAgent "ghost" "You are helpful" [] in
  let agents := [MongoAgentRepository.agent_document (mkAgent "bot" "You are helpful" [])] in
  let conversations :=
    [[("_id", VOid 1); ("agent_name", VStr "bot"); ("messages", VArr [])]] in
  MongoAgentRepository.delete a agents = (Ok tt, agents) /\
  MongoConversationRepository.delete_by_agent_name "ghost" conversations
  = (Ok tt, conversations) /\
  MongoConversationRepository.delete_by_agent_object a conversations
  = (Ok tt, conversations) /\
  MongoConversationRepository.delete_by_id "000000000000000000000002" conversations
  = (Ok tt, conversations).
Proof.
  intros a agents conversations.
  destruct (deletion_idempotence a "ghost" "000000000000000000000002" 2
              agents conversations) as (H1 & H2 & H3 & H4).
  split; [apply H1; none_selected|].
  split; [apply H2; none_selected|].
  split; [apply H3; none_selected|].
  apply H4; [reflexivity | none_selected].
Defined.

(** ** Creating a conversation under an explicit identifier *)

(** C1: the pre-existence check of [create] looks at the field [id], not
    at the record identifier [_id].  A second [create] under the identifier
    of a stored record passes the check and fails in the store with the raw
    [DuplicateKeyError]; and a recovered document that merely has a field
    [id] makes [create] report "already exists" although no record has that
    identifier. *)
Theorem create_checks_id_field_not_record_id :
  let c := mkConversation "bot" [mkMessage "user" "hi"] (Some (IdStr "c1")) in
  let st := snd (MongoConversationRepository.create c []) in
  let raw := [("_id", VStr "r1"); ("id", VStr "c1");
              ("agent_name", VStr "bot"); ("messages", VArr [])] in
  let st2 := snd (MongoConversationRepository.recover [raw] []) in
  (MongoConversationRepository.create c [] = (Ok tt, st) /\
   has_record_id (VStr "c1") st /\
   MongoConversationRepository.create c st = (Raise DuplicateKeyError, st)) /\
  (MongoConversationRepository.recover [raw] [] = (Ok tt, st2) /\
   ~ has_record_id (VStr "c1") st2 /\
   MongoConversationRepository.create c st2
   = (Raise (ValueError "Conversation with id c1 already exists."), st2)).
Proof.
  intros c st raw st2. split; split; try reflexivity; split; try reflexivity.
  - eexists. split; [left; reflexivity | reflexivity].
  - intros [d [[<-|[]] H]]. discriminate H.
Qed.

(** ** Looking a conversation up by identifier *)

(** C2: a conversation created under the explicit string identifier [X]
    is stored with the string as [_id], while [get_by_id X] looks for the
    [ObjectId] built from [X]: the lookup finds nothing.  Created under the
    [ObjectId] itself, the record is found, and the identifier handed back
    is the [ObjectId], not its string form. *)
Theorem get_by_id_after_create_explicit :
  let X := "507f1f77bcf86cd799439011" in
  let ms := [mkMessage "system" "You are helpful"; mkMessage "user" "hi"] in
  let c := mkConversation "bot" ms (Some (IdStr X)) in
  let st := snd (MongoConversationRepository.create c []) in
  let o := 24912482966938930280208240657%N in
  let c' := mkConversation "bot" ms (Some (IdOid o)) in
  let st' := snd (MongoConversationRepository.create c' []) in
  (MongoConversationRepository.create c [] = (Ok tt, st) /\
   MongoConversationRepository.get_by_id X st
   = (Raise (ValueError
        "Conversation with id 507f1f77bcf86cd799439011 does not exist."), st)) /\
  (MongoConversationRepository.create c' [] = (Ok tt, st') /\
   oid_str o = X /\
   MongoConversationRepository.get_by_id X st'
   = (Ok (mkConversation "bot" ms (Some (IdOid o))), st')).
Proof.
  intros X ms c st o c' st'. repeat split; vm_compute; reflexivity.
Qed.

(** X17: whenever [get_by_id] returns, the identifier in the result is
    the [ObjectId] built from the argument, never its string form. *)
Lemma get_by_id_returns_native_id : forall s st c st',
  MongoConversationRepository.get_by_id s st = (Ok c, st') ->
  exists o, ObjectId s = Some o /\ id c = Some (IdOid o).
Proof.
  intros s st c st'. unfold MongoConversationRepository.get_by_id.
  destruct (ObjectId s) as [o|]; [|discriminate].
  unfold bind, find_one.
  destruct (List.find (matches [("_id", VOid o)]) st) as [d|] eqn:F;
    [|discriminate].
  apply find_some in F. destruct F as [_ F].
  unfold matches in F. simpl in F. rewrite andb_true_r in F.
  unfold cond_holds in F. simpl in F.
  destruct d as [|kv d]; [simpl in F; discriminate F|].
  change (found (Some (kv :: d))) with (Some (kv :: d)). cbv iota beta.
  remember (kv :: d) as doc eqn:Edoc. clear Edoc.
  unfold lift, subscript.
  destruct (messages_of_doc doc) as [ms|]; cbn [obind]; [|discriminate].
  destruct (lookup "agent_name" doc) as [n|]; cbn [obind]; [|discriminate].
  destruct (lookup "_id" doc) as [i|]; cbn [obind]; [|discriminate F].
  destruct (as_string n) as [n'|]; cbn [obind]; [|discriminate].
  unfold value_matches in F. apply orb_true_iff in F.
  destruct F as [F|F].
  - apply value_eqb_eq in F. subst i. cbn. intros E. injection E as <- _.
    exists o. split; reflexivity.
  - destruct i; try discriminate F. cbn. discriminate.
Qed.

(** ** Updating a conversation *)

(** C3: [update] matches [_id] against the raw string [current.id].  For
    a record whose identifier the store assigned, the conversation read
    back carries the string form of that identifier; [update] with it
    selects nothing and the record keeps its agent name and messages. *)
Theorem update_by_string_id_misses_record :
  let ms := [mkMessage "system" "You are helpful"; mkMessage "user" "hi"] in
  let st := snd (MongoConversationRepository.create
                   (mkConversation "bot" ms None) []) in
  let current := mkConversation "bot" ms (Some (IdStr "000000000000000000000001")) in
  let updated := mkConversation "bot2" [mkMessage "user" "bye"] None in
  MongoConversationRepository.get_all st = (Ok [current], st) /\
  MongoConversationRepository.get_by_id "000000000000000000000001" st
  = (Ok (mkConversation "bot" ms (Some (IdOid 1))), st) /\
  MongoConversationRepository.update current updated st = (Ok tt, st).
Proof.
  intros ms st current updated. repeat split; vm_compute; reflexivity.
Qed.

(** ** Inserting *)

Lemma oid_below_fresh : forall st d,
  In d st -> (oid_of d < fresh_oid st)%N.
Proof.
  unfold fresh_oid. induction st as [|e st IH]; simpl; intros d H.
  - destruct H.
  - destruct H as [<-|H]; [lia|]. specialize (IH d H). lia.
Qed.

(** The generated identifier is carried by no stored document. *)
Lemma fresh_oid_unused : forall st e,
  In e st -> value_eqb (index_key "_id" e) (VOid (fresh_oid st)) = false.
Proof.
  intros st e H. apply value_eqb_neq. intros E.
  pose proof (oid_below_fresh st e H) as L.
  unfold oid_of in L. unfold index_key in E.
  destruct (lookup "_id" e) as [v|]; [|discriminate E].
  subst v. lia.
Qed.

Lemma existsb_false_iff : forall (A : Type) (p : A -> bool) l,
  existsb p l = false <-> forall x, In x l -> p x = false.
Proof.
  intros A p l. induction l as [|y l IH]; simpl.
  - split; [intros _ x [] | reflexivity].
  - rewrite orb_false_iff, IH. split.
    + intros [Hy H] x [<-|Hx]; auto.
    + intros H. split; [apply H; left; reflexivity|].
      intros x Hx. apply H. right. exact Hx.
Qed.

(** A document without [_id] always goes into a collection that has no
    index besides [_id], under the generated identifier. *)
Lemma insert_one_fresh : forall d st,
  lookup "_id" d = None ->
  insert_one [] d st
  = (Ok tt, (st ++ [("_id", VOid (fresh_oid st)) :: d])%list).
Proof.
  intros d st H. unfold insert_one. rewrite H.
  replace (existsb _ st) with false; [reflexivity|].
  symmetry. apply existsb_false_iff. intros e He.
  unfold collides. cbn [existsb]. rewrite orb_false_r.
  change (index_key "_id" (("_id", VOid (fresh_oid st)) :: d))
    with (VOid (fresh_oid st)).
  apply fresh_oid_unused. exact He.
Qed.

(** What [insert_one] can leave behind. *)
Lemma insert_one_state : forall idx d st,
  snd (insert_one idx d st) = st
  \/ snd (insert_one idx d st) = (st ++ [d])%list
  \/ snd (insert_one idx d st)
     = (st ++ [("_id", VOid (fresh_oid st)) :: d])%list.
Proof.
  intros idx d st. unfold insert_one.
  destruct (lookup "_id" d) as [[| | | |]|];
    try (left; reflexivity);
    match goal with
    | |- context [if ?b then _ else _] => destruct b
    end; simpl; auto.
Qed.

(** ** Creating an agent *)

Lemma agent_collides_iff : forall a st e,
  In e st ->
  collides MongoAgentRepository.indexes
    (("_id", VOid (fresh_oid st)) :: MongoAgentRepository.agent_document a) e
  = true
  <-> lookup "name" e = Some (VStr (name a)).
Proof.
  intros a st e He. unfold collides, MongoAgentRepository.indexes.
  cbn [existsb]. rewrite orb_false_r.
  change (index_key "_id" _) with (index_key "_id" e) at 1.
  change (index_key "_id" (("_id", VOid (fresh_oid st)) :: _))
    with (VOid (fresh_oid st)).
  change (index_key "name" (_ :: MongoAgentRepository.agent_document a))
    with (VStr (name a)).
  rewrite (fresh_oid_unused st e He). cbn [orb].
  rewrite value_eqb_eq. unfold index_key.
  destruct (lookup "name" e) as [v|]; split; congruence.
Qed.

(** C6: on the [agent] collection, whose [name] index is unique, creating
    an agent whose name a stored record already has raises the domain
    error "already exists" (the store's [DuplicateKeyError] is caught) and
    leaves every record as it was; otherwise the record of the agent, with
    its name, system prompt and generation prompts, is appended. *)
Theorem agent_create_duplicate : forall a st,
  (has_agent_named (name a) st ->
   MongoAgentRepository.create a st
   = (Raise (ValueError ("Agent with name " ++ name a ++ " already exists.")),
      st)) /\
  (~ has_agent_named (name a) st ->
   MongoAgentRepository.create a st
   = (Ok tt,
      (st ++ [("_id", VOid (fresh_oid st))
              :: [("name", VStr (name a));
                  ("system_prompt", VStr (system_prompt a));
                  ("dataset_generation_prompts",
                   VArr (map VStr (dataset_generation_prompts a)))]])%list)).
Proof.
  intros a st.
  unfold MongoAgentRepository.create, try_except, insert_one.
  change (lookup "_id" (MongoAgentRepository.agent_document a)) with (@None value).
  cbv iota beta.
  set (d' := ("_id", VOid (fresh_oid st)) :: MongoAgentRepository.agent_document a).
  split.
  - intros [e [He Hn]].
    replace (existsb (collides MongoAgentRepository.indexes d') st) with true.
    + reflexivity.
    + symmetry. apply existsb_exists. exists e. split; [exact He|].
      apply agent_collides_iff; assumption.
  - intros Hn.
    replace (existsb (collides MongoAgentRepository.indexes d') st) with false.
    + reflexivity.
    + symmetry. apply existsb_false_iff. intros e He.
      destruct (collides MongoAgentRepository.indexes d' e) eqn:E; auto.
      exfalso. apply Hn. exists e. split; [exact He|].
      apply (agent_collides_iff a st e He). exact E.
Qed.

Lemma agent_create_duplicate_witness :
  let a := mkAgent "bot" "Be terse" ["x"] in
  let st := snd (MongoAgentRepository.create (mkAgent "bot" "You are helpful" []) []) in
  has_agent_named "bot" st /\
  MongoAgentRepository.create a st
  = (Raise (ValueError "Agent with name bot already exists."), st) /\
  ~ has_agent_named "bot" [] /\
  MongoAgentRepository.create a []
  = (Ok tt, [[("_id", VOid 1); ("name", VStr "bot");
              ("system_prompt", VStr "Be terse");
              ("dataset_generation_prompts", VArr [VStr "x"])]]).
Proof.
  intros a st.
  assert (H : has_agent_named "bot" st).
  { eexists. split; [left; reflexivity | reflexivity]. }
  assert (H' : ~ has_agent_named "bot" []).
  { intros [d [[] _]]. }
  split; [exact H|].
  split; [exact (proj1 (agent_create_duplicate a st) H)|].
  split; [exact H'|].
  exact (proj2 (agent_create_duplicate a []) H').
Defined.

(** ** Backing conversations up *)

Section Backup.

Variable to_dict : Conversation -> document.

(** The document form carries no record identifier. *)
Hypothesis to_dict_no_id : forall c, lookup "_id" (to_dict c) = None.

Lemma insert_each_appends : forall cs st,
  exists new,
    insert_each MongoBackupRepository.indexes (map to_dict cs) st
    = (Ok tt, (st ++ new)%list)
    /\ Forall2 (archived to_dict) new cs.
Proof.
  induction cs as [|c cs IH]; intros st; simpl.
  - exists []. rewrite app_nil_r. split; [reflexivity | constructor].
  - unfold MongoBackupRepository.indexes.
    rewrite (insert_one_fresh _ st (to_dict_no_id c)).
    destruct (IH (st ++ [("_id", VOid (fresh_oid st)) :: to_dict c])%list)
      as [new [E F]].
    exists ((("_id", VOid (fresh_oid st)) :: to_dict c) :: new). split.
    + unfold MongoBackupRepository.indexes in E. rewrite E.
      rewrite <- app_assoc. reflexivity.
    + constructor; [eexists; reflexivity | exact F].
Qed.

Lemma backup_single : forall c st,
  MongoBackupRepository.backup_conversations to_dict (Single c) st
  = (Ok tt, (st ++ [("_id", VOid (fresh_oid st)) :: to_dict c])%list).
Proof.
  intros c st. simpl. apply insert_one_fresh. apply to_dict_no_id.
Qed.

Lemma backup_several : forall cs st,
  exists new,
    snd (MongoBackupRepository.backup_conversations to_dict (Several cs) st)
    = (st ++ new)%list
    /\ Forall2 (archived to_dict) new cs
    /\ List.length new = List.length cs
    /\ (cs <> [] ->
        fst (MongoBackupRepository.backup_conversations to_dict (Several cs) st)
        = Ok tt).
Proof.
  intros cs st. destruct cs as [|c cs].
  - exists []. simpl. rewrite app_nil_r.
    repeat split; [constructor | congruence].
  - destruct (insert_each_appends (c :: cs) st) as [new [E F]].
    exists new. simpl. simpl in E. rewrite E. simpl.
    repeat split; [exact F | exact (Forall2_length F)].
Qed.

End Backup.

(** C8: when the document form of a conversation carries no [_id], a
    single conversation adds exactly one archive document, its document
    form under a generated identifier, and a list of N conversations adds
    exactly N archive documents at the end of the archive, one per
    conversation and in order, whatever the archive already holds (nothing
    is deduplicated). *)
Theorem backup_conversations_arity :
  forall (to_dict : Conversation -> document),
  (forall c, lookup "_id" (to_dict c) = None) ->
  forall st,
  (forall c,
     MongoBackupRepository.backup_conversations to_dict (Single c) st
     = (Ok tt, (st ++ [("_id", VOid (fresh_oid st)) :: to_dict c])%list)) /\
  (forall cs,
     exists new,
       snd (MongoBackupRepository.backup_conversations to_dict (Several cs) st)
       = (st ++ new)%list
       /\ Forall2 (archived to_dict) new cs
       /\ List.length new = List.length cs
       /\ (cs <> [] ->
           fst (MongoBackupRepository.backup_conversations to_dict (Several cs) st)
           = Ok tt)).
Proof.
  intros td H st. split.
  - intros c. apply backup_single. exact H.
  - intros cs. apply backup_several. exact H.
Qed.

Lemma backup_conversations_arity_witness :
  let c := mkConversation "bot" [mkMessage "user" "hi"] (Some (IdStr "c1")) in
  (forall c, lookup "_id" (to_dict c) = None) /\
  MongoBackupRepository.backup_conversations to_dict (Single c)
    (snd (MongoBackupRepository.backup_conversations to_dict (Single c) []))
  = (Ok tt, [("_id", VOid 1) :: to_dict c; ("_id", VOid 2) :: to_dict c]).
Proof.
  intros c.
  assert (H : forall c, lookup "_id" (to_dict c) = None) by (intros; reflexivity).
  split; [exact H|].
  exact (proj1 (backup_conversations_arity to_dict H
                  (snd (MongoBackupRepository.backup_conversations
                          to_dict (Single c) []))) c).
Defined.

(** ** What the write paths of the conversation repository leave behind *)

Lemma apply_set_keeps : forall op k d d',
  apply_set op d = Some d' -> set_target op <> k -> lookup k d' = lookup k d.
Proof.
  intros [j v|arr filt j v] k d d'; simpl.
  - intros E H. injection E as <-. apply lookup_set_other. congruence.
  - destruct (lookup arr d) as [[| | |l|]|]; try discriminate.
    intros E H. injection E as <-. apply lookup_set_other. congruence.
Qed.

Lemma apply_sets_keeps : forall ops k d d',
  Forall (fun op => set_target op <> k) ops ->
  apply_sets ops d = Some d' -> lookup k d' = lookup k d.
Proof.
  induction ops as [|op ops IH]; simpl; intros k d d' F E.
  - injection E as <-. reflexivity.
  - inversion F as [|? ? Hop Hops]; subst.
    destruct (apply_set op d) as [d1|] eqn:E1; [|discriminate].
    rewrite (IH k d1 d' Hops E). eapply apply_set_keeps; eauto.
Qed.

Lemma update_one_in : forall q ops st d',
  In d' (snd (update_one q ops st)) ->
  In d' st \/ exists d, In d st /\ apply_sets ops d = Some d'.
Proof.
  intros q ops. induction st as [|e st IH]; simpl; intros d' H.
  - destruct H.
  - destruct (matches q e).
    + destruct (apply_sets ops e) as [e'|] eqn:E; simpl in H.
      * destruct H as [<-|H]; [|auto].
        right. exists e. auto.
      * auto.
    + destruct (update_one q ops st) as [r st''] eqn:U. simpl in *.
      destruct H as [<-|H]; [auto|].
      destruct (IH d' H) as [H'|[d [Hd Ed]]]; [auto|].
      right. exists d. auto.
Qed.

Lemma update_many_in : forall q ops st d',
  In d' (snd (update_many q ops st)) ->
  In d' st \/ exists d, In d st /\ apply_sets ops d = Some d'.
Proof.
  intros q ops. induction st as [|e st IH]; simpl; intros d' H.
  - destruct H.
  - destruct (matches q e).
    + destruct (apply_sets ops e) as [e'|] eqn:E.
      * destruct (update_many q ops st) as [r st''] eqn:U. simpl in *.
        destruct H as [<-|H]; [right; exists e; auto|].
        destruct (IH d' H) as [H'|[d [Hd Ed]]]; [auto|].
        right. exists d. auto.
      * simpl in H. auto.
    + destruct (update_many q ops st) as [r st''] eqn:U. simpl in *.
      destruct H as [<-|H]; [auto|].
      destruct (IH d' H) as [H'|[d [Hd Ed]]]; [auto|].
      right. exists d. auto.
Qed.

Lemma remove_first_in : forall p st d,
  In d (remove_first p st) -> In d st.
Proof.
  intros p. induction st as [|e st IH]; simpl; intros d H; auto.
  destruct (p e); [auto|]. destruct H as [<-|H]; auto.
Qed.

(** [create] either leaves the collection alone or appends one document,
    whose top-level fields are among [_id], [agent_name] and [messages]. *)
Lemma create_state : forall c st,
  snd (MongoConversationRepository.create c st) = st
  \/ exists d,
       snd (MongoConversationRepository.create c st) = (st ++ [d])%list
       /\ forall k, k <> "_id" -> k <> "agent_name" -> k <> "messages" ->
                    lookup k d = None.
Proof.
  intros c st. unfold MongoConversationRepository.create.
  assert (K : forall i k, k <> "_id" -> k <> "agent_name" -> k <> "messages" ->
                lookup k [("_id", i); ("agent_name", VStr (agent_name c));
                          ("messages", messages_value (messages c))] = None).
  { intros i k H1 H2 H3.
    rewrite !lookup_cons_other by congruence. reflexivity. }
  assert (K' : forall k, k <> "_id" -> k <> "agent_name" -> k <> "messages" ->
                lookup k [("agent_name", VStr (agent_name c));
                          ("messages", messages_value (messages c))] = None).
  { intros k H1 H2 H3.
    rewrite !lookup_cons_other by congruence. reflexivity. }
  destruct (id_is_set (id c)).
  - unfold bind, find_one.
    destruct (found (List.find _ st)); [left; reflexivity|].
    match goal with
    | |- context [insert_one ?idx ?d st] =>
        destruct (insert_one_state idx d st) as [E|[E|E]]; rewrite E
    end; [left; reflexivity | right; eexists; split; [reflexivity|] ..].
    + apply K.
    + intros k H1 H2 H3. rewrite lookup_cons_other by congruence.
      apply K; assumption.
  - match goal with
    | |- context [insert_one ?idx ?d st] =>
        destruct (insert_one_state idx d st) as [E|[E|E]]; rewrite E
    end; [left; reflexivity | right; eexists; split; [reflexivity|] ..].
    + apply K'.
    + intros k H1 H2 H3. rewrite lookup_cons_other by congruence.
      apply K'; assumption.
Qed.

(** No call of the repository writes a top-level field other than [_id],
    [agent_name] and [messages]. *)
Lemma run_call_field_absent : forall k call st,
  k <> "_id" -> k <> "agent_name" -> k <> "messages" ->
  field_absent k st -> field_absent k (run_call call st).
Proof.
  intros k call st H1 H2 H3 A d. destruct call; simpl.
  - destruct (create_state c st) as [E|[e [E He]]]; rewrite E.
    + apply A.
    + intros H. apply in_app_or in H. destruct H as [H|[<-|[]]]; auto.
  - intros H. apply update_one_in in H. destruct H as [H|[e [He E]]]; auto.
    apply apply_sets_keeps with (k:=k) in E; [rewrite E; auto|].
    repeat (constructor; [cbn [set_target]; congruence|]). constructor.
  - intros H. apply update_many_in in H. destruct H as [H|[e [He E]]]; auto.
    apply apply_sets_keeps with (k:=k) in E; [rewrite E; auto|].
    repeat (constructor; [cbn [set_target]; congruence|]). constructor.
  - intros H. apply filter_In in H. destruct H as [H _]. auto.
  - intros H. apply filter_In in H. destruct H as [H _]. auto.
  - unfold MongoConversationRepository.delete_by_id.
    destruct (ObjectId s); simpl; auto.
    intros H. apply remove_first_in in H. auto.
Qed.

Lemma written_field_absent : forall k st,
  k <> "_id" -> k <> "agent_name" -> k <> "messages" ->
  written st -> field_absent k st.
Proof.
  intros k st H1 H2 H3 W. induction W as [|call st W IH].
  - intros d [].
  - apply run_call_field_absent; assumption.
Qed.

Lemma agent_prompt_filter_fails : forall c p d,
  lookup "agent_prompt" d = None ->
  matches [c; ("agent_prompt", VStr p)] d = false.
Proof.
  intros c p d H. unfold matches. cbn [forallb].
  unfold cond_holds at 2. cbn [fst snd]. rewrite H.
  cbn. apply andb_false_r.
Qed.

(** C9: in a collection reached from the empty one through the
    repository's own calls (create, update, update_agent_field and the
    deletes; not recover), no document has a field [agent_prompt], so the
    filter of [delete_by_agent_object] selects no document and the call
    leaves the collection unchanged, for every agent. *)
Theorem delete_by_agent_object_selects_nothing : forall st,
  written st ->
  forall a,
    selects_none [("agent_name", VStr (name a));
                  ("agent_prompt", VStr (system_prompt a))] st
    /\ MongoConversationRepository.delete_by_agent_object a st = (Ok tt, st).
Proof.
  intros st W a.
  assert (S : selects_none [("agent_name", VStr (name a));
                            ("agent_prompt", VStr (system_prompt a))] st).
  { intros d Hd. apply agent_prompt_filter_fails.
    apply (written_field_absent (k:="agent_prompt")) with (st:=st);
      try assumption; discriminate. }
  split; [exact S|]. apply delete_many_nothing. exact S.
Qed.

Lemma delete_by_agent_object_selects_nothing_witness :
  let bot := mkAgent "bot" "You are helpful" [] in
  let c := mkConversation "bot"
             [mkMessage "system" "You are helpful"; mkMessage "user" "hi"] None in
  let st := run_call (CallUpdateAgentField bot (mkAgent "bot" "Be terse" []))
              (run_call (CallCreate c) []) in
  written st /\
  st = [[("_id", VOid 1); ("agent_name", VStr "bot");
         ("messages",
          VArr [VDoc [("role", VStr "system"); ("content", VStr "Be terse")];
                VDoc [("role", VStr "user"); ("content", VStr "hi")]])]] /\
  MongoConversationRepository.delete_by_agent_object
    (mkAgent "bot" "Be terse" []) st = (Ok tt, st).
Proof.
  intros bot c st.
  assert (W : written st) by (repeat constructor).
  split; [exact W|]. split; [reflexivity|].
  exact (proj2 (delete_by_agent_object_selects_nothing W
                  (mkAgent "bot" "Be terse" []))).
Defined.

(** ** Documents that store conversations *)

Lemma message_of_value_inv : forall e m,
  message_of_value e = Ok m ->
  exists md, e = VDoc md
             /\ lookup "role" md = Some (VStr (role m))
             /\ lookup "content" md = Some (VStr (content m)).
Proof.
  intros e m. unfold message_of_value, subscript.
  destruct e as [| | | |md]; try discriminate.
  destruct (lookup "role" md) as [r|] eqn:Hr; cbn [obind]; [|discriminate].
  destruct (lookup "content" md) as [c|] eqn:Hc; cbn [obind]; [|discriminate].
  destruct r; cbn [as_string obind]; try discriminate.
  destruct c; cbn [as_string obind]; try discriminate.
  intros E. injection E as <-. exists md. auto.
Qed.

Lemma message_of_value_intro : forall md r c,
  lookup "role" md = Some (VStr r) ->
  lookup "content" md = Some (VStr c) ->
  message_of_value (VDoc md) = Ok (mkMessage r c).
Proof.
  intros md r c Hr Hc. unfold message_of_value, subscript.
  rewrite Hr, Hc. reflexivity.
Qed.

Lemma message_doc_roundtrip : forall m, message_of_value (message_doc m) = Ok m.
Proof. intros [r c]. reflexivity. Qed.

Lemma messages_roundtrip : forall ms,
  traverse message_of_value (map message_doc ms) = Ok ms.
Proof.
  induction ms as [|m ms IH]; [reflexivity|].
  cbn [map traverse]. rewrite message_doc_roundtrip, IH. reflexivity.
Qed.

Lemma traverse_map : forall (A B : Type) (f : A -> outcome B) (g : A -> A)
    (h : B -> B) l ys,
  (forall x y, f x = Ok y -> f (g x) = Ok (h y)) ->
  traverse f l = Ok ys -> traverse f (map g l) = Ok (map h ys).
Proof.
  intros A B f g h l ys H. revert ys.
  induction l as [|x l IH]; cbn [traverse map]; intros ys E.
  - injection E as <-. reflexivity.
  - destruct (f x) as [y|] eqn:Ex; [|discriminate].
    destruct (traverse f l) as [ys'|]; [|discriminate].
    injection E as <-. rewrite (H x y Ex), (IH ys' eq_refl). reflexivity.
Qed.

Lemma stores_inv : forall d c,
  stores d c ->
  exists l i s,
    lookup "agent_name" d = Some (VStr (agent_name c))
    /\ lookup "messages" d = Some (VArr l)
    /\ traverse message_of_value l = Ok (messages c)
    /\ lookup "_id" d = Some i
    /\ py_str i = Ok s
    /\ id c = Some (IdStr s).
Proof.
  intros d c [H [l Hl]]. revert H.
  unfold conversation_of_doc, messages_of_doc, subscript. rewrite Hl.
  destruct (lookup "agent_name" d) as [n|] eqn:Hn; cbn [obind]; [|discriminate].
  destruct n as [|n| | |]; cbn [as_string obind]; try discriminate.
  cbn [iterate obind].
  destruct (traverse message_of_value l) as [ms|] eqn:Hms; cbn [obind];
    [|discriminate].
  destruct (lookup "_id" d) as [i|] eqn:Hi; cbn [obind]; [|discriminate].
  destruct (py_str i) as [s|] eqn:Es; cbn [obind]; [|discriminate].
  intros E. injection E as <-. exists l, i, s. cbn. auto 10.
Qed.

Lemma stores_intro : forall d n l ms i s,
  lookup "agent_name" d = Some (VStr n) ->
  lookup "messages" d = Some (VArr l) ->
  traverse message_of_value l = Ok ms ->
  lookup "_id" d = Some i ->
  py_str i = Ok s ->
  stores d (mkConversation n ms (Some (IdStr s))).
Proof.
  intros d n l ms i s Hn Hl Hms Hi Hs. split; [|exists l; exact Hl].
  unfold conversation_of_doc, messages_of_doc, subscript.
  rewrite Hn, Hl. cbn [obind as_string iterate].
  rewrite Hms, Hi. cbn [obind]. rewrite Hs. reflexivity.
Qed.

Lemma stores_traverse : forall st cs,
  Forall2 stores st cs -> traverse conversation_of_doc st = Ok cs.
Proof.
  intros st cs F. induction F as [|d c st cs [H _] F IH]; [reflexivity|].
  cbn [traverse]. rewrite H, IH. reflexivity.
Qed.

Lemma filter_all : forall st, List.filter (matches []) st = st.
Proof.
  induction st as [|d st IH]; [reflexivity|].
  cbn [List.filter matches forallb]. rewrite IH. reflexivity.
Qed.

(** On a collection of conversation documents [get_all] returns the
    conversations, in order. *)
Lemma get_all_of_stores : forall st cs,
  Forall2 stores st cs ->
  MongoConversationRepository.get_all st = (Ok cs, st).
Proof.
  intros st cs F. unfold MongoConversationRepository.get_all, bind, find, lift.
  rewrite filter_all, (stores_traverse F). reflexivity.
Qed.

Lemma matches_agent_name : forall d c n,
  stores d c ->
  matches [("agent_name", VStr n)] d = String.eqb (agent_name c) n.
Proof.
  intros d c n S. destruct (stores_inv S) as (l & i & s & Hn & _).
  unfold matches, cond_holds. cbn [forallb fst snd]. rewrite Hn.
  unfold value_matches. cbn [value_eqb]. rewrite orb_false_r, andb_true_r.
  reflexivity.
Qed.

(** ** Propagating an agent change into the conversations *)

Lemma set_in_elem_message : forall updated e m,
  message_of_value e = Ok m ->
  message_of_value
    (set_in_elem ("role", VStr "system") "content"
                 (VStr (system_prompt updated)) e)
  = Ok (retarget_message updated m).
Proof.
  intros updated e m H.
  destruct (message_of_value_inv _ H) as (md & -> & Hr & Hc).
  unfold set_in_elem, cond_holds, retarget_message. cbn [fst snd].
  rewrite Hr. unfold value_matches. cbn [value_eqb]. rewrite orb_false_r.
  destruct (String.eqb (role m) "system"); [|exact H].
  apply message_of_value_intro.
  - rewrite lookup_set_other by discriminate. exact Hr.
  - apply lookup_set_same.
Qed.

(** The [$set] of [update_agent_field] on one conversation document. *)
Lemma retarget_document : forall updated d c,
  stores d c ->
  exists d',
    apply_sets
      [SetField "agent_name" (VStr (name updated));
       SetInArray "messages" ("role", VStr "system")
                  "content" (VStr (system_prompt updated))] d
    = Some d'
    /\ stores d' (mkConversation (name updated)
                                (map (retarget_message updated) (messages c))
                                (id c)).
Proof.
  intros updated d c S.
  destruct (stores_inv S) as (l & i & s & Hn & Hl & Hms & Hi & Hs & Hid).
  cbn [apply_sets apply_set].
  rewrite lookup_set_other by discriminate. rewrite Hl.
  eexists. split; [reflexivity|]. rewrite Hid.
  eapply stores_intro.
  - rewrite lookup_set_other by discriminate. apply lookup_set_same.
  - apply lookup_set_same.
  - apply traverse_map with (2 := Hms). apply set_in_elem_message.
  - rewrite !lookup_set_other by discriminate. exact Hi.
  - exact Hs.
Qed.



(** ** Reading back what [create] wrote *)

Lemma insert_one_ok_inv : forall d i st st',
  lookup "_id" d = Some i ->
  insert_one [] d st = (Ok tt, st') ->
  st' = (st ++ [d])%list
  /\ forall e, In e st -> value_eqb (index_key "_id" e) i = false.
Proof.
  intros d i st st' Hi. unfold insert_one. rewrite Hi.
  assert (K : (if existsb (collides [] d) st
               then (Raise DuplicateKeyError, st)
               else (Ok tt, (st ++ [d])%list)) = (Ok tt, st') ->
              st' = (st ++ [d])%list
              /\ forall e, In e st -> value_eqb (index_key "_id" e) i = false).
  { destruct (existsb (collides [] d) st) eqn:E; [discriminate|].
    intros H. injection H as <-. split; [reflexivity|].
    intros e He. rewrite existsb_false_iff in E. specialize (E e He).
    unfold collides in E. cbn [existsb] in E. rewrite orb_false_r in E.
    unfold index_key at 2 in E. rewrite Hi in E. exact E. }
  destruct i; try exact K. discriminate.
Qed.

(** What a successful [create] appended. *)
Lemma create_ok_inv : forall c st st',
  MongoConversationRepository.create c st = (Ok tt, st') ->
  exists i,
    st' = (st ++ [[("_id", value_of_ident i);
                   ("agent_name", VStr (agent_name c));
                   ("messages", messages_value (messages c))]])%list
    /\ (forall e, In e st ->
                  value_eqb (index_key "_id" e) (value_of_ident i) = false)
    /\ (id_is_set (id c) = true -> id c = Some i)
    /\ (id_is_set (id c) = false -> i = IdOid (fresh_oid st)).
Proof.
  intros c st st'. unfold MongoConversationRepository.create.
  destruct (id_is_set (id c)) eqn:S.
  - destruct (id c) as [j|] eqn:Ej; [|discriminate S].
    unfold bind, find_one.
    destruct (found (List.find _ st)); [discriminate|].
    intros H. apply insert_one_ok_inv with (i := value_of_ident j) in H;
      [|reflexivity].
    destruct H as [-> H]. exists j. repeat split; auto. discriminate.
  - unfold MongoConversationRepository.indexes.
    rewrite insert_one_fresh by reflexivity.
    intros H. injection H as <-. exists (IdOid (fresh_oid st)).
    repeat split; auto; try discriminate.
    intros e He. apply fresh_oid_unused. exact He.
Qed.

Lemma created_document_stores : forall i n ms,
  exists s,
    py_str (value_of_ident i) = Ok s
    /\ stores [("_id", value_of_ident i); ("agent_name", VStr n);
               ("messages", messages_value ms)]
              (mkConversation n ms (Some (IdStr s))).
Proof.
  intros i n ms.
  assert (P : exists s, py_str (value_of_ident i) = Ok s).
  { destruct i; eexists; reflexivity. }
  destruct P as [s Hs]. exists s. split; [exact Hs|].
  eapply stores_intro; try reflexivity.
  - apply messages_roundtrip.
  - exact Hs.
Qed.

Lemma stores_filter : forall n st cs,
  Forall2 stores st cs ->
  Forall2 stores
    (List.filter (matches [("agent_name", VStr n)]) st)
    (List.filter (fun c => String.eqb (agent_name c) n) cs).
Proof.
  intros n st cs F. induction F as [|d c st cs S F IH]; [constructor|].
  cbn [List.filter]. rewrite (matches_agent_name n S).
  destruct (String.eqb (agent_name c) n); [constructor|]; assumption.
Qed.

Lemma find_app_none : forall (p : document -> bool) st l,
  List.find p st = None -> List.find p (st ++ l) = List.find p l.
Proof.
  intros p st l. induction st as [|d st IH]; cbn [List.find app]; auto.
  destruct (p d); [discriminate | exact IH].
Qed.

(** Among conversation documents, the filter [{_id: ObjectId}] selects
    the documents whose identifier is that [ObjectId]. *)
Lemma matches_oid : forall d c o,
  stores d c ->
  matches [("_id", VOid o)] d = value_eqb (index_key "_id" d) (VOid o).
Proof.
  intros d c o S. destruct (stores_inv S) as (l & i & s & _ & _ & _ & Hi & Hs & _).
  unfold matches, cond_holds, index_key. cbn [forallb fst snd]. rewrite Hi.
  unfold value_matches. rewrite andb_true_r.
  destruct i; try discriminate Hs; rewrite orb_false_r; reflexivity.
Qed.

(** C5: on a collection of conversation documents, a [create] that
    returns has appended one document, and each read path rebuilds from it
    the messages that were supplied, element for element and in order:
    [get_all] (last of the list), [get_by_agent_name] for its agent name
    (last of the list), and [get_by_id] under every identifier string
    whose [ObjectId] is the record's identifier. *)
Theorem create_then_read_back_messages : forall st cs c st',
  Forall2 stores st cs ->
  MongoConversationRepository.create c st = (Ok tt, st') ->
  exists d s,
    st' = (st ++ [d])%list
    /\ MongoConversationRepository.get_all st'
       = (Ok (cs ++ [mkConversation (agent_name c) (messages c)
                                    (Some (IdStr s))])%list, st')
    /\ MongoConversationRepository.get_by_agent_name (agent_name c) st'
       = (Ok (List.filter
                (fun x => String.eqb (agent_name x) (agent_name c)) cs
              ++ [mkConversation (agent_name c) (messages c)
                                 (Some (IdStr s))])%list, st')
    /\ (forall x o,
          ObjectId x = Some o ->
          lookup "_id" d = Some (VOid o) ->
          MongoConversationRepository.get_by_id x st'
          = (Ok (mkConversation (agent_name c) (messages c)
                                (Some (IdOid o))), st')).
Proof.
  intros st cs c st' F H.
  destruct (create_ok_inv _ _ H) as (i & -> & Hfree & _).
  destruct (created_document_stores i (agent_name c) (messages c))
    as (s & Hs & S).
  set (d := [("_id", value_of_ident i); ("agent_name", VStr (agent_name c));
             ("messages", messages_value (messages c))]) in *.
  exists d, s. split; [reflexivity|].
  assert (F' : Forall2 stores (st ++ [d])
                 (cs ++ [mkConversation (agent_name c) (messages c)
                                        (Some (IdStr s))])).
  { apply Forall2_app; [exact F | constructor; [exact S | constructor]]. }
  split; [apply get_all_of_stores; exact F'|]. split.
  - unfold MongoConversationRepository.get_by_agent_name, bind, find, lift.
    pose proof (stores_filter (agent_name c) F') as G.
    rewrite !filter_app in G. cbn [List.filter] in G.
    rewrite (matches_agent_name (agent_name c) S) in G.
    cbn [agent_name] in G. rewrite String.eqb_refl in G.
    rewrite filter_app. cbn [List.filter].
    rewrite (matches_agent_name (agent_name c) S).
    cbn [agent_name]. rewrite String.eqb_refl.
    rewrite (stores_traverse G). reflexivity.
  - intros x o Hx Hd.
    assert (Ei : value_of_ident i = VOid o).
    { unfold d in Hd. cbn in Hd. congruence. }
    unfold MongoConversationRepository.get_by_id. rewrite Hx.
    unfold bind, find_one.
    rewrite find_app_none.
    + cbn [List.find]. rewrite (matches_oid o S).
      unfold d at 1. unfold index_key. cbn [lookup String.eqb Ascii.eqb Bool.eqb].
      rewrite Ei, value_eqb_refl.
      unfold d. cbn [found]. unfold lift, messages_of_doc, subscript.
      cbn [lookup String.eqb Ascii.eqb Bool.eqb obind iterate messages_value].
      rewrite messages_roundtrip, Ei. reflexivity.
    + apply find_none_iff. intros e He.
      assert (Se : exists ce, stores e ce).
      { clear - F He. induction F as [|d0 c0 st cs S0 F IH]; [destruct He|].
        destruct He as [<-|He]; [exists c0; exact S0 | auto]. }
      destruct Se as [ce Se]. rewrite (matches_oid o Se).
      rewrite <- Ei. apply Hfree. exact He.
Qed.

Lemma create_then_read_back_messages_witness :
  let ms := [mkMessage "system" "You are helpful"; mkMessage "user" "hi";
             mkMessage "assistant" "hello"; mkMessage "user" "hi"] in
  let st := [[("_id", VStr "c1"); ("agent_name", VStr "other");
              ("messages", messages_value [mkMessage "user" "x"])]] in
  let cs := [mkConversation "other" [mkMessage "user" "x"] (Some (IdStr "c1"))] in
  let c := mkConversation "bot" ms None in
  let st' := snd (MongoConversationRepository.create c st) in
  Forall2 stores st cs /\
  MongoConversationRepository.create c st = (Ok tt, st') /\
  exists d s,
    st' = (st ++ [d])%list
    /\ MongoConversationRepository.get_all st'
       = (Ok (cs ++ [mkConversation "bot" ms (Some (IdStr s))])%list, st')
    /\ MongoConversationRepository.get_by_agent_name "bot" st'
       = (Ok (List.filter (fun x => String.eqb (agent_name x) "bot") cs
              ++ [mkConversation "bot" ms (Some (IdStr s))])%list, st')
    /\ (forall x o,
          ObjectId x = Some o ->
          lookup "_id" d = Some (VOid o) ->
          MongoConversationRepository.get_by_id x st'
          = (Ok (mkConversation "bot" ms (Some (IdOid o))), st')).
Proof.
  intros ms st cs c st'.
  assert (F : Forall2 stores st cs).
  { repeat constructor; eexists; reflexivity. }
  assert (E : MongoConversationRepository.create c st = (Ok tt, st'))
    by reflexivity.
  split; [exact F|]. split; [exact E|].
  exact (@create_then_read_back_messages st cs c st' F E).
Defined.

(** ** The string form of an [ObjectId] *)

Lemma to_hex_length : forall k n tail,
  String.length (to_hex k n tail) = k + String.length tail.
Proof.
  induction k as [|k IH]; intros n tail; cbn [to_hex]; [reflexivity|].
  rewrite IH. cbn [String.length]. lia.
Qed.

Lemma hex_value_digit : forall v,
  (v < 16)%N -> hex_value (hex_digit v) = Some v.
Proof.
  intros v H.
  destruct v as [|p]; [reflexivity|].
  do 4 (destruct p as [p|p|]; try reflexivity); lia.
Qed.

Lemma digit_not_space : forall v,
  (v < 16)%N -> is_space (hex_digit v) = false.
Proof.
  intros v H.
  destruct v as [|p]; [reflexivity|].
  do 4 (destruct p as [p|p|]; try reflexivity); lia.
Qed.

Lemma fromhex_to_hex : forall k n tail count acc,
  fromhex (to_hex (2 * k) n tail) count acc
  = fromhex tail (count + N.of_nat k)%N
            (acc * 256 ^ N.of_nat k + n mod 256 ^ N.of_nat k)%N.
Proof.
  induction k as [|k IH]; intros n tail count acc.
  - cbn [Nat.mul to_hex]. f_equal; [lia|]. cbn. rewrite N.mod_1_r. lia.
  - replace (2 * S k) with (S (S (2 * k))) by lia. cbn [to_hex].
    rewrite IH, fromhex_cons.
    assert (H1 : (n / 16 mod 16 < 16)%N) by (apply N.mod_lt; discriminate).
    assert (H2 : (n mod 16 < 16)%N) by (apply N.mod_lt; discriminate).
    rewrite (digit_not_space H1), (hex_value_digit H1), (hex_value_digit H2).
    assert (M : (n mod 256 = n mod 16 + 16 * (n / 16 mod 16))%N)
      by (change 256%N with (16 * 16)%N; apply N.Div0.mod_mul_r).
    assert (D : (n / 16 / 16 = n / 256)%N)
      by (rewrite N.Div0.div_div; reflexivity).
    rewrite Nat2N.inj_succ, N.pow_succ_r'.
    rewrite (N.Div0.mod_mul_r n 256 (256 ^ N.of_nat k)), D, M.
    f_equal; lia.
Qed.

(** [ObjectId(str(o)) == o] for the identifiers of twelve bytes. *)
Lemma ObjectId_oid_str : forall o,
  (o < 2 ^ 96)%N -> ObjectId (oid_str o) = Some o.
Proof.
  intros o H. unfold ObjectId, oid_str.
  rewrite (proj2 (N.ltb_lt o (2 ^ 96)) H).
  rewrite to_hex_length. cbn [String.length Nat.add Nat.eqb].
  change 24 with (2 * 12). rewrite fromhex_to_hex. cbn [fromhex].
  change (0 + N.of_nat 12 =? 12)%N with true. cbv iota. f_equal.
  change (256 ^ N.of_nat 12)%N with (2 ^ 96)%N.
  rewrite N.mod_small by exact H. lia.
Qed.

(** ** What [create] under an explicit identifier does, in general *)

Lemma collides_id_iff : forall i rest st,
  existsb (collides [] (("_id", value_of_ident i) :: rest)) st = true
  <-> has_record_id (value_of_ident i) st.
Proof.
  intros i rest st. rewrite existsb_exists. unfold has_record_id.
  assert (K : forall e,
            collides [] (("_id", value_of_ident i) :: rest) e = true
            <-> lookup "_id" e = Some (value_of_ident i)).
  { intros e. unfold collides. cbn [existsb]. rewrite orb_false_r.
    change (index_key "_id" (("_id", value_of_ident i) :: rest))
      with (value_of_ident i).
    rewrite value_eqb_eq. unfold index_key.
    destruct (lookup "_id" e) as [v|]; [split; congruence|].
    split; [|discriminate]. destruct i; discriminate. }
  split; intros [e [He H]]; exists e; (split; [exact He|]); apply K; exact H.
Qed.

(** X18: with the identifier set, [create] reports "already exists" when some
    document has a field [id] holding it, fails with the store's
    [DuplicateKeyError] when no such field exists but a record has the
    identifier, and appends the record otherwise; the collection changes
    only in the last case. *)
Lemma create_explicit_id : forall c i st,
  id c = Some i ->
  id_is_set (id c) = true ->
  let d := [("_id", value_of_ident i);
            ("agent_name", VStr (agent_name c));
            ("messages", messages_value (messages c))] in
  (List.find (matches [("id", value_of_ident i)]) st <> None ->
   MongoConversationRepository.create c st
   = (Raise (ValueError ("Conversation with id " ++ ident_str i
                         ++ " already exists.")), st)) /\
  (List.find (matches [("id", value_of_ident i)]) st = None ->
   has_record_id (value_of_ident i) st ->
   MongoConversationRepository.create c st = (Raise DuplicateKeyError, st)) /\
  (List.find (matches [("id", value_of_ident i)]) st = None ->
   ~ has_record_id (value_of_ident i) st ->
   MongoConversationRepository.create c st = (Ok tt, (st ++ [d])%list)).
Proof.
  intros c i st Hi Hset d.
  unfold MongoConversationRepository.create. rewrite Hset, Hi.
  unfold bind, find_one. repeat split.
  - destruct (List.find (matches [("id", value_of_ident i)]) st) as [e|] eqn:F;
      [|congruence]. intros _.
    apply find_some in F. destruct F as [_ F].
    destruct e as [|kv e]; [destruct i; discriminate F | reflexivity].
  - intros F H. rewrite F. cbn [found]. unfold insert_one.
    change (lookup "_id" _) with (Some (value_of_ident i)).
    apply collides_id_iff with (rest := tl d) in H. fold d.
    change (("_id", value_of_ident i) :: tl d) with d in H.
    unfold MongoConversationRepository.indexes.
    destruct i; cbn [value_of_ident] in *; rewrite H; reflexivity.
  - intros F H. rewrite F. cbn [found]. unfold insert_one.
    change (lookup "_id" _) with (Some (value_of_ident i)).
    rewrite <- (collides_id_iff i (tl d) st) in H.
    change (("_id", value_of_ident i) :: tl d) with d in H. fold d.
    apply not_true_is_false in H.
    unfold MongoConversationRepository.indexes.
    destruct i; cbn [value_of_ident] in *; rewrite H; reflexivity.
Qed.

(** ** The frame of [update] *)

(** X19: [update] always returns normally, keeps the number of records
    and touches no record identifier. *)
Lemma update_keeps_ids : forall current updated st,
  fst (MongoConversationRepository.update current updated st) = Ok tt
  /\ map (lookup "_id") (snd (MongoConversationRepository.update current updated st))
     = map (lookup "_id") st.
Proof.
  intros current updated st. unfold MongoConversationRepository.update.
  induction st as [|d st [IH1 IH2]]; [split; reflexivity|].
  cbn [update_one apply_sets apply_set].
  match goal with |- context [matches ?q d] => destruct (matches q d) end.
  - split; [reflexivity|]. cbn [snd map]. f_equal.
    rewrite !lookup_set_other by discriminate. reflexivity.
  - match goal with
    | |- context [update_one ?q ?ops st] =>
        destruct (update_one q ops st) as [r st'']
    end.
    cbn [fst snd map] in *. split; [exact IH1 | f_equal; exact IH2].
Qed.

(* ================================================================== *)
(** * Further properties of the repositories *)

(** ** Agents: create, look up, delete *)

Lemma traverse_as_string : forall l, traverse as_string (map VStr l) = Ok l.
Proof.
  induction l as [|x l IH]; [reflexivity|].
  cbn [map traverse as_string]. rewrite IH. reflexivity.
Qed.

Lemma agent_of_created_doc : forall v a,
  MongoAgentRepository.agent_of_doc
    (("_id", v) :: MongoAgentRepository.agent_document a) = Ok a.
Proof.
  intros v [n p g]. unfold MongoAgentRepository.agent_of_doc.
  cbn -[traverse]. rewrite traverse_as_string. reflexivity.
Qed.

Lemma agent_stored_name : forall d a,
  agent_stored d a -> lookup "name" d = Some (VStr (name a)).
Proof.
  intros d a. unfold agent_stored, MongoAgentRepository.agent_of_doc, subscript.
  destruct (lookup "name" d) as [n|]; cbn [obind]; [|discriminate].
  destruct (lookup "system_prompt" d) as [p|]; cbn [obind]; [|discriminate].
  destruct (lookup "dataset_generation_prompts" d) as [g|]; cbn [obind];
    [|discriminate].
  destruct n; cbn [as_string obind]; try discriminate.
  destruct p; cbn [as_string obind]; try discriminate.
  destruct g as [| | |l|]; cbn [obind]; try discriminate.
  destruct (traverse as_string l); cbn [obind]; [|discriminate].
  intros E. injection E as <-. reflexivity.
Qed.

Lemma matches_name : forall d a n,
  agent_stored d a ->
  matches [("name", VStr n)] d = String.eqb (name a) n.
Proof.
  intros d a n S. unfold matches, cond_holds. cbn [forallb fst snd].
  rewrite (agent_stored_name S). unfold value_matches. cbn [value_eqb].
  rewrite orb_false_r, andb_true_r. reflexivity.
Qed.

(** A document whose [name] field is the string [n] is selected by the
    filter [{name: n}]. *)
Lemma named_is_selected : forall d n,
  lookup "name" d = Some (VStr n) -> matches [("name", VStr n)] d = true.
Proof.
  intros d n H. unfold matches, cond_holds. cbn [forallb fst snd]. rewrite H.
  unfold value_matches. cbn [value_eqb]. rewrite String.eqb_refl. reflexivity.
Qed.

Lemma selects_none_not_named : forall n st,
  selects_none [("name", VStr n)] st -> ~ has_agent_named n st.
Proof.
  intros n st H [d [Hd Hn]]. specialize (H d Hd).
  rewrite (named_is_selected _ Hn) in H. discriminate.
Qed.

(** What a [create] that returns has done. *)
Lemma agent_create_ok_inv : forall a st st',
  MongoAgentRepository.create a st = (Ok tt, st') ->
  st' = (st ++ [("_id", VOid (fresh_oid st))
                :: MongoAgentRepository.agent_document a])%list
  /\ ~ has_agent_named (name a) st.
Proof.
  intros a st st'.
  unfold MongoAgentRepository.create, try_except, insert_one.
  change (lookup "_id" (MongoAgentRepository.agent_document a))
    with (@None value). cbv iota beta.
  destruct (existsb _ st) eqn:E; [discriminate|].
  intros H. injection H as <-. split; [reflexivity|].
  intros [e [He Hn]]. rewrite existsb_false_iff in E.
  specialize (E e He). apply (agent_collides_iff a st e He) in Hn. congruence.
Qed.

Lemma agent_create_fresh : forall a st,
  ~ has_agent_named (name a) st ->
  MongoAgentRepository.create a st
  = (Ok tt, (st ++ [("_id", VOid (fresh_oid st))
                    :: MongoAgentRepository.agent_document a])%list).
Proof.
  intros a st H.
  unfold MongoAgentRepository.create, try_except, insert_one.
  change (lookup "_id" (MongoAgentRepository.agent_document a))
    with (@None value). cbv iota beta.
  replace (existsb _ st) with false; [reflexivity|].
  symmetry. apply existsb_false_iff. intros e He.
  match goal with |- ?b = false => destruct b eqn:E end; [|reflexivity].
  exfalso. apply H. exists e. split; [exact He|].
  apply (agent_collides_iff a st e He). exact E.
Qed.

Lemma agent_stored_traverse : forall st ags,
  Forall2 agent_stored st ags ->
  traverse MongoAgentRepository.agent_of_doc st = Ok ags.
Proof.
  intros st ags F. induction F as [|d a st ags S F IH]; [reflexivity|].
  cbn [traverse]. unfold agent_stored in S. rewrite S, IH. reflexivity.
Qed.

(** X1: on a collection of agent documents, after a [create] that
    returns, [get_by_name] under the agent's name yields the agent as it
    was given, and [get_all] yields the agents that were there followed by
    the new one. *)
Theorem agent_create_then_read : forall st ags a st',
  Forall2 agent_stored st ags ->
  MongoAgentRepository.create a st = (Ok tt, st') ->
  MongoAgentRepository.get_by_name (name a) st' = (Ok (Some a), st')
  /\ MongoAgentRepository.get_all st' = (Ok (ags ++ [a])%list, st').
Proof.
  intros st ags a st' F H.
  destruct (agent_create_ok_inv _ _ H) as [-> Hn].
  set (d := ("_id", VOid (fresh_oid st)) :: MongoAgentRepository.agent_document a).
  assert (Sd : agent_stored d a) by apply agent_of_created_doc.
  split.
  - unfold MongoAgentRepository.get_by_name, bind, find_one.
    rewrite find_app_none.
    + cbn [List.find]. rewrite (matches_name (name a) Sd), String.eqb_refl.
      unfold d at 1. cbn [found]. fold d. unfold lift.
      unfold agent_stored in Sd. rewrite Sd. reflexivity.
    + apply find_none_iff. intros e He.
      assert (Se : exists ae, agent_stored e ae).
      { clear - F He. induction F as [|d0 a0 st ags S0 F IH]; [destruct He|].
        destruct He as [<-|He]; [exists a0; exact S0 | auto]. }
      destruct Se as [ae Se]. rewrite (matches_name (name a) Se).
      apply String.eqb_neq. intros E. apply Hn. exists e. split; [exact He|].
      rewrite (agent_stored_name Se), E. reflexivity.
  - unfold MongoAgentRepository.get_all, bind, find, lift.
    rewrite filter_all.
    assert (F' : Forall2 agent_stored (st ++ [d]) (ags ++ [a])).
    { apply Forall2_app; [exact F | constructor; [exact Sd | constructor]]. }
    rewrite (agent_stored_traverse F'). reflexivity.
Qed.

Lemma agent_create_then_read_witness :
  let bot := mkAgent "bot" "You are helpful" ["p1"; "p2"] in
  let st := snd (MongoAgentRepository.create (mkAgent "other" "x" []) []) in
  let st' := snd (MongoAgentRepository.create bot st) in
  Forall2 agent_stored st [mkAgent "other" "x" []] /\
  MongoAgentRepository.create bot st = (Ok tt, st') /\
  MongoAgentRepository.get_by_name "bot" st' = (Ok (Some bot), st') /\
  MongoAgentRepository.get_all st' = (Ok [mkAgent "other" "x" []; bot], st').
Proof.
  intros bot st st'.
  assert (F : Forall2 agent_stored st [mkAgent "other" "x" []]).
  { repeat constructor. }
  assert (E : MongoAgentRepository.create bot st = (Ok tt, st')) by reflexivity.
  split; [exact F|]. split; [exact E|].
  exact (@agent_create_then_read st _ bot st' F E).
Defined.

(** X2: [get_by_name] reports absence, [None], exactly when the filter
    [{name: agent_name}] selects no document; it never changes the
    collection. *)
Theorem agent_get_by_name_absent : forall n st,
  snd (MongoAgentRepository.get_by_name n st) = st
  /\ (fst (MongoAgentRepository.get_by_name n st) = Ok None
      <-> selects_none [("name", VStr n)] st).
Proof.
  intros n st. unfold MongoAgentRepository.get_by_name, bind, find_one.
  destruct (List.find (matches [("name", VStr n)]) st) as [d|] eqn:F.
  - apply find_some in F. destruct F as [Hd Hm].
    destruct d as [|kv d]; [discriminate Hm|]. cbn [found]. unfold lift.
    destruct (MongoAgentRepository.agent_of_doc (kv :: d)) as [a|e];
      (split; [reflexivity|]); cbn [fst ret];
      (split; [discriminate|]); intros H;
      rewrite (H _ Hd) in Hm; discriminate.
  - cbn [found]. split; [reflexivity|]. split; [|reflexivity].
    intros _. exact (proj1 (find_none_iff _ _) F).
Qed.

Lemma remove_first_app_last : forall (p : document -> bool) st d,
  (forall e, In e st -> p e = false) -> p d = true ->
  remove_first p (st ++ [d])%list = st.
Proof.
  intros p st d. induction st as [|e st IH]; cbn [app remove_first]; intros H Hd.
  - rewrite Hd. reflexivity.
  - rewrite (H e (or_introl eq_refl)). f_equal. apply IH; [|exact Hd].
    intros x Hx. apply H. right. exact Hx.
Qed.

(** X3: when no stored document is selected by the agent's name,
    [create] followed by [delete] of the same agent returns the collection
    to what it was. *)
Theorem agent_create_then_delete : forall a st,
  selects_none [("name", VStr (name a))] st ->
  exists st',
    MongoAgentRepository.create a st = (Ok tt, st')
    /\ MongoAgentRepository.delete a st' = (Ok tt, st).
Proof.
  intros a st H. eexists. split.
  - apply agent_create_fresh. apply selects_none_not_named. exact H.
  - unfold MongoAgentRepository.delete, delete_one. f_equal.
    apply remove_first_app_last; [exact H|].
    apply named_is_selected. reflexivity.
Qed.

Lemma agent_create_then_delete_witness :
  let st := snd (MongoAgentRepository.create (mkAgent "other" "x" []) []) in
  let bot := mkAgent "bot" "You are helpful" [] in
  selects_none [("name", VStr "bot")] st /\
  exists st',
    MongoAgentRepository.create bot st = (Ok tt, st')
    /\ MongoAgentRepository.delete bot st' = (Ok tt, st).
Proof.
  intros st bot.
  assert (H : selects_none [("name", VStr (name bot))] st) by none_selected.
  split; [exact H|]. exact (agent_create_then_delete bot H).
Defined.

Lemma agent_get_by_name_absent_witness :
  selects_none [("name", VStr "ghost")]
    (snd (MongoAgentRepository.create (mkAgent "bot" "x" []) [])) /\
  fst (MongoAgentRepository.get_by_name "ghost"
         (snd (MongoAgentRepository.create (mkAgent "bot" "x" []) [])))
  = Ok None.
Proof.
  assert (H : selects_none [("name", VStr "ghost")]
                (snd (MongoAgentRepository.create (mkAgent "bot" "x" []) [])))
    by none_selected.
  split; [exact H|].
  exact (proj2 (proj2 (agent_get_by_name_absent "ghost" _)) H).
Defined.

(** ** Agents: update *)

Lemma split_first_none : forall (p : document -> bool) st,
  (forall d, In d st -> p d = false) -> split_first p st = None.
Proof.
  intros p st. induction st as [|e st IH]; cbn [split_first]; intros H; auto.
  rewrite (H e (or_introl eq_refl)), IH; [reflexivity|].
  intros d Hd. apply H. right. exact Hd.
Qed.

Lemma split_first_some : forall (p : document -> bool) st pre d post,
  split_first p st = Some (pre, d, post) ->
  st = (pre ++ d :: post)%list
  /\ p d = true
  /\ forall e, In e pre -> p e = false.
Proof.
  intros p st. induction st as [|e st IH]; cbn [split_first];
    intros pre d post H; [discriminate|].
  destruct (p e) eqn:E.
  - injection H as <- <- <-. repeat split; auto. intros x [].
  - destruct (split_first p st) as [[[pre' d'] post']|]; [|discriminate].
    injection H as <- <- <-.
    destruct (IH pre' d' post' eq_refl) as (-> & Hd & Hpre).
    repeat split; auto. intros x [<-|Hx]; auto.
Qed.

Lemma split_first_found : forall (p : document -> bool) st d,
  In d st -> p d = true ->
  exists pre e post, split_first p st = Some (pre, e, post).
Proof.
  intros p st d Hd Hp.
  destruct (split_first p st) as [[[pre e] post]|] eqn:E; [eauto|].
  exfalso. clear - Hd Hp E. induction st as [|x st IH]; [destruct Hd|].
  cbn [split_first] in E. destruct (p x) eqn:Ex; [discriminate|].
  destruct (split_first p st) as [[[pre e] post]|]; [discriminate|].
  destruct Hd as [<-|Hd]; [congruence | auto].
Qed.

Lemma set_field_cons : forall k v d, exists kv d', set_field k v d = kv :: d'.
Proof.
  intros k v [|[j w] d]; cbn [set_field]; [eauto|].
  destruct (String.eqb j k); eauto.
Qed.

(** The document [update] writes for [updated], from any document. *)
Lemma agent_updated_doc : forall updated d,
  exists d',
    apply_sets
      [SetField "name" (VStr (name updated));
       SetField "system_prompt" (VStr (system_prompt updated));
       SetField "dataset_generation_prompts"
                (VArr (map VStr (dataset_generation_prompts updated)))] d
    = Some d'
    /\ agent_stored d' updated
    /\ lookup "_id" d' = lookup "_id" d
    /\ exists kv rest, d' = kv :: rest.
Proof.
  intros [n p g] d. cbn [apply_sets apply_set name system_prompt
                         dataset_generation_prompts].
  eexists. split; [reflexivity|]. split; [|split].
  - unfold agent_stored, MongoAgentRepository.agent_of_doc, subscript.
    rewrite (lookup_set_other (k:="dataset_generation_prompts") (j:="name"))
      by discriminate.
    rewrite (lookup_set_other (k:="system_prompt") (j:="name")) by discriminate.
    rewrite lookup_set_same.
    rewrite (lookup_set_other (k:="dataset_generation_prompts")
                              (j:="system_prompt")) by discriminate.
    rewrite !lookup_set_same. cbn [obind as_string].
    rewrite traverse_as_string. reflexivity.
  - rewrite !lookup_set_other by discriminate. reflexivity.
  - apply set_field_cons.
Qed.

Lemma in_stored : forall st ags e,
  Forall2 agent_stored st ags -> In e st -> exists a, agent_stored e a.
Proof.
  intros st ags e F. induction F as [|d a st ags S F IH]; intros H; [destruct H|].
  destruct H as [<-|H]; [exists a; exact S | auto].
Qed.

(** X4: [update] under a name that selects no document returns normally
    and leaves the collection as it was (nothing is inserted). *)
Theorem agent_update_absent : forall current updated st,
  selects_none [("name", VStr (name current))] st ->
  MongoAgentRepository.update current updated st = (Ok tt, st).
Proof.
  intros current updated st H.
  unfold MongoAgentRepository.update, update_one_unique.
  rewrite (split_first_none _ st H). reflexivity.
Qed.

Lemma agent_update_absent_witness :
  let st := snd (MongoAgentRepository.create (mkAgent "bot" "x" []) []) in
  selects_none [("name", VStr "ghost")] st /\
  MongoAgentRepository.update (mkAgent "ghost" "" []) (mkAgent "bot2" "y" []) st
  = (Ok tt, st).
Proof.
  intros st.
  assert (H : selects_none [("name", VStr (name (mkAgent "ghost" "" [])))] st)
    by none_selected.
  split; [exact H|].
  exact (agent_update_absent (mkAgent "ghost" "" []) (mkAgent "bot2" "y" []) H).
Defined.

(** X5: on a collection of agent documents in which some record has the
    current name, an [update] that returns has overwritten name, system
    prompt and generation prompts: [get_by_name] under the updated name
    yields the updated agent; the record identifiers and the number of
    records are as before. *)
Theorem agent_update_then_get : forall st ags current updated st',
  Forall2 agent_stored st ags ->
  has_agent_named (name current) st ->
  MongoAgentRepository.update current updated st = (Ok tt, st') ->
  MongoAgentRepository.get_by_name (name updated) st' = (Ok (Some updated), st')
  /\ map (lookup "_id") st' = map (lookup "_id") st.
Proof.
  intros st ags current updated st' F [e [He Hn]].
  unfold MongoAgentRepository.update, update_one_unique.
  destruct (split_first_found (matches [("name", VStr (name current))]) st e
              He (named_is_selected _ Hn)) as (pre & d & post & E).
  rewrite E.
  destruct (split_first_some _ _ E) as (-> & _ & _).
  destruct (agent_updated_doc updated d) as (d' & -> & Sd & Hid & kv & rest & Ed).
  destruct (key_taken MongoAgentRepository.indexes d' (pre ++ post)%list) eqn:K;
    [discriminate|].
  intros H. injection H as <-. split.
  - unfold MongoAgentRepository.get_by_name, bind, find_one.
    rewrite find_app_none.
    + cbn [List.find]. rewrite (matches_name (name updated) Sd), String.eqb_refl.
      replace (found (Some d')) with (Some d') by (rewrite Ed; reflexivity).
      unfold lift.
      unfold agent_stored in Sd. rewrite Sd. reflexivity.
    + apply find_none_iff. intros x Hx.
      destruct (in_stored x F) as [ax Sx]; [apply in_or_app; auto|].
      rewrite (matches_name (name updated) Sx). apply String.eqb_neq. intros N.
      unfold key_taken in K. rewrite existsb_false_iff in K.
      specialize (K x (in_or_app _ _ _ (or_introl Hx))).
      unfold MongoAgentRepository.indexes in K. cbn [existsb] in K.
      rewrite orb_false_r in K. unfold index_key in K.
      rewrite (agent_stored_name Sx), (agent_stored_name Sd), N in K.
      rewrite value_eqb_refl in K. discriminate.
  - rewrite !map_app. cbn [map]. rewrite Hid. reflexivity.
Qed.

Lemma agent_update_then_get_witness :
  let st := snd (MongoAgentRepository.create (mkAgent "other" "x" [])
                   (snd (MongoAgentRepository.create
                           (mkAgent "bot" "You are helpful" []) []))) in
  let updated := mkAgent "bot2" "Be terse" ["p"] in
  let st' := snd (MongoAgentRepository.update
                    (mkAgent "bot" "" []) updated st) in
  has_agent_named "bot" st /\
  MongoAgentRepository.get_by_name "bot2" st' = (Ok (Some updated), st') /\
  map (lookup "_id") st' = [Some (VOid 1); Some (VOid 2)].
Proof.
  intros st updated st'.
  assert (F : Forall2 agent_stored st
                [mkAgent "bot" "You are helpful" []; mkAgent "other" "x" []]).
  { repeat constructor. }
  assert (N : has_agent_named (name (mkAgent "bot" "" [])) st).
  { eexists. split; [left; reflexivity | reflexivity]. }
  assert (E : MongoAgentRepository.update (mkAgent "bot" "" []) updated st
              = (Ok tt, st')) by reflexivity.
  split; [exact N|].
  exact (@agent_update_then_get st _ (mkAgent "bot" "" []) updated st' F N E).
Defined.

(** X6: on a collection of agent documents, renaming an agent to a name
    that another record has fails with the store's [DuplicateKeyError],
    which [update], unlike [create], does not translate; the collection is
    left as it was. *)
Theorem agent_update_to_taken_name : forall st ags current updated,
  Forall2 agent_stored st ags ->
  has_agent_named (name current) st ->
  has_agent_named (name updated) st ->
  name current <> name updated ->
  MongoAgentRepository.update current updated st = (Raise DuplicateKeyError, st).
Proof.
  intros st ags current updated F [e [He Hn]] [u [Hu Hun]] Hneq.
  unfold MongoAgentRepository.update, update_one_unique.
  destruct (split_first_found (matches [("name", VStr (name current))]) st e
              He (named_is_selected _ Hn)) as (pre & d & post & E).
  rewrite E.
  destruct (split_first_some _ _ E) as (Est & Hd & _).
  destruct (agent_updated_doc updated d) as (d' & -> & Sd & _).
  replace (key_taken MongoAgentRepository.indexes d' (pre ++ post)%list) with true;
    [reflexivity|].
  symmetry. apply existsb_exists. exists u. split.
  - rewrite Est in Hu. apply in_app_or in Hu. apply in_or_app.
    destruct Hu as [Hu|[<-|Hu]]; auto.
    exfalso. destruct (in_stored d F) as [ad Sa].
    { rewrite Est. apply in_or_app. right. left. reflexivity. }
    rewrite (matches_name (name current) Sa) in Hd. apply String.eqb_eq in Hd.
    rewrite (agent_stored_name Sa) in Hun. congruence.
  - unfold MongoAgentRepository.indexes. cbn [existsb]. rewrite orb_false_r.
    unfold index_key. rewrite Hun, (agent_stored_name Sd).
    apply value_eqb_refl.
Qed.

Lemma agent_update_to_taken_name_witness :
  let st := snd (MongoAgentRepository.create (mkAgent "other" "x" [])
                   (snd (MongoAgentRepository.create
                           (mkAgent "bot" "You are helpful" []) []))) in
  has_agent_named "bot" st /\ has_agent_named "other" st /\
  MongoAgentRepository.update (mkAgent "bot" "" []) (mkAgent "other" "y" []) st
  = (Raise DuplicateKeyError, st).
Proof.
  intros st.
  assert (F : Forall2 agent_stored st
                [mkAgent "bot" "You are helpful" []; mkAgent "other" "x" []]).
  { repeat constructor. }
  assert (N : has_agent_named (name (mkAgent "bot" "" [])) st).
  { eexists. split; [left; reflexivity | reflexivity]. }
  assert (U : has_agent_named (name (mkAgent "other" "y" [])) st).
  { eexists. split; [right; left; reflexivity | reflexivity]. }
  split; [exact N|]. split; [exact U|].
  apply (@agent_update_to_taken_name st _ (mkAgent "bot" "" [])
           (mkAgent "other" "y" []) F N U).
  discriminate.
Defined.

(** ** Conversations: what the repository's own calls maintain *)

Lemma insert_one_cases : forall idx d st,
  (exists e, insert_one idx d st = (Raise e, st))
  \/ exists st', insert_one idx d st = (Ok tt, st').
Proof.
  intros idx d st. unfold insert_one.
  destruct (lookup "_id" d) as [[| | | |]|];
    try (left; eexists; reflexivity);
    match goal with
    | |- context [if ?b then _ else _] => destruct b
    end; eauto.
Qed.

(** [create] either raises and leaves the collection alone, or returns. *)
Lemma create_cases : forall c st,
  (exists e, MongoConversationRepository.create c st = (Raise e, st))
  \/ exists st', MongoConversationRepository.create c st = (Ok tt, st').
Proof.
  intros c st. unfold MongoConversationRepository.create.
  destruct (id_is_set (id c)).
  - unfold bind, find_one. destruct (found (List.find _ st)).
    + left. eexists. reflexivity.
    + apply insert_one_cases.
  - apply insert_one_cases.
Qed.

Lemma in_readable : forall st e,
  readable st -> In e st -> exists c, stores e c.
Proof.
  intros st e R H. unfold readable in R. rewrite Forall_forall in R. auto.
Qed.

Lemma readable_stores : forall st,
  readable st <-> exists cs, Forall2 stores st cs.
Proof.
  intros st. split.
  - intros R. induction R as [|d st [c S] R [cs F]].
    + exists []. constructor.
    + exists (c :: cs). constructor; assumption.
  - intros [cs F]. induction F as [|d c st cs S F IH]; constructor; eauto.
Qed.

(** The [$set] of [update] on one conversation document. *)
Lemma update_document : forall updated d c,
  stores d c ->
  exists d',
    apply_sets
      [SetField "agent_name" (VStr (agent_name updated));
       SetField "messages" (messages_value (messages updated))] d
    = Some d'
    /\ stores d' (mkConversation (agent_name updated) (messages updated) (id c)).
Proof.
  intros updated d c S.
  destruct (stores_inv S) as (l & i & s & _ & _ & _ & Hi & Hs & Hid).
  cbn [apply_sets apply_set]. eexists. split; [reflexivity|]. rewrite Hid.
  eapply stores_intro.
  - rewrite lookup_set_other by discriminate. apply lookup_set_same.
  - apply lookup_set_same.
  - apply messages_roundtrip.
  - rewrite !lookup_set_other by discriminate. exact Hi.
  - exact Hs.
Qed.

Lemma run_call_readable : forall call st,
  readable st -> readable (run_call call st).
Proof.
  intros call st R. unfold readable. apply Forall_forall. intros d.
  destruct call; simpl.
  - destruct (create_cases c st) as [[e E]|[st' E]]; rewrite E; cbn [snd].
    + apply in_readable. exact R.
    + destruct (create_ok_inv _ _ E) as (i & -> & _).
      intros H. apply in_app_or in H. destruct H as [H|[<-|[]]].
      * eapply in_readable; eauto.
      * destruct (created_document_stores i (agent_name c) (messages c))
          as (s & _ & S). eauto.
  - intros H. apply update_one_in in H. destruct H as [H|[e [He E]]].
    + eapply in_readable; eauto.
    + destruct (@in_readable st e R He) as [ce Se].
      destruct (update_document updated Se) as (d' & E' & S').
      rewrite E in E'. injection E' as <-. eauto.
  - intros H. apply update_many_in in H. destruct H as [H|[e [He E]]].
    + eapply in_readable; eauto.
    + destruct (@in_readable st e R He) as [ce Se].
      destruct (retarget_document updated Se) as (d' & E' & S').
      rewrite E in E'. injection E' as <-. eauto.
  - intros H. apply filter_In in H. destruct H as [H _].
    eapply in_readable; eauto.
  - intros H. apply filter_In in H. destruct H as [H _].
    eapply in_readable; eauto.
  - unfold MongoConversationRepository.delete_by_id.
    destruct (ObjectId s); simpl.
    + intros H. apply remove_first_in in H. eapply in_readable; eauto.
    + apply in_readable. exact R.
Qed.

Lemma written_readable : forall st, written st -> readable st.
Proof.
  intros st W. induction W as [|call st W IH]; [constructor|].
  apply run_call_readable. exact IH.
Qed.

(** X7: a collection reached from the empty one through the repository's
    own calls (every method except recover) holds only documents the read
    paths can rebuild: [get_all] returns, and [get_by_agent_name] returns,
    for every name, the conversations of [get_all] that have that agent
    name, in the same order. *)
Theorem written_collections_read_back : forall st,
  written st ->
  exists cs,
    MongoConversationRepository.get_all st = (Ok cs, st)
    /\ forall n,
         MongoConversationRepository.get_by_agent_name n st
         = (Ok (List.filter (fun c => String.eqb (agent_name c) n) cs), st).
Proof.
  intros st W.
  destruct (proj1 (readable_stores st) (written_readable W)) as [cs F].
  exists cs. split; [apply get_all_of_stores; exact F|].
  intros n. unfold MongoConversationRepository.get_by_agent_name, bind, find, lift.
  rewrite (stores_traverse (stores_filter n F)). reflexivity.
Qed.

Lemma written_collections_read_back_witness :
  let c := mkConversation "bot"
             [mkMessage "system" "You are helpful"; mkMessage "user" "hi"]
             (Some (IdStr "c1")) in
  let st := run_call (CallUpdate c (mkConversation "bot2" [mkMessage "user" "bye"] None))
              (run_call (CallCreate c) []) in
  written st /\
  exists cs,
    MongoConversationRepository.get_all st = (Ok cs, st)
    /\ forall n,
         MongoConversationRepository.get_by_agent_name n st
         = (Ok (List.filter (fun c => String.eqb (agent_name c) n) cs), st).
Proof.
  intros c st.
  assert (W : written st) by (repeat constructor).
  split; [exact W|]. exact (written_collections_read_back W).
Defined.

Lemma update_one_keeps_field : forall k q ops st,
  Forall (fun op => set_target op <> k) ops ->
  map (lookup k) (snd (update_one q ops st)) = map (lookup k) st.
Proof.
  intros k q ops st F. induction st as [|d st IH]; [reflexivity|].
  cbn [update_one]. destruct (matches q d).
  - destruct (apply_sets ops d) as [d'|] eqn:E; [|reflexivity].
    cbn [snd map]. rewrite (@apply_sets_keeps ops k d d' F E). reflexivity.
  - destruct (update_one q ops st) as [r st'']. cbn [snd map] in *.
    rewrite IH. reflexivity.
Qed.

Lemma update_many_keeps_field : forall k q ops st,
  Forall (fun op => set_target op <> k) ops ->
  map (lookup k) (snd (update_many q ops st)) = map (lookup k) st.
Proof.
  intros k q ops st F. induction st as [|d st IH]; [reflexivity|].
  cbn [update_many]. destruct (matches q d).
  - destruct (apply_sets ops d) as [d'|] eqn:E; [|reflexivity].
    destruct (update_many q ops st) as [r st'']. cbn [snd map] in *.
    rewrite (@apply_sets_keeps ops k d d' F E), IH. reflexivity.
  - destruct (update_many q ops st) as [r st'']. cbn [snd map] in *.
    rewrite IH. reflexivity.
Qed.

Lemma NoDup_map_filter : forall (A B : Type) (f : A -> B) (p : A -> bool) l,
  NoDup (map f l) -> NoDup (map f (List.filter p l)).
Proof.
  intros A B f p l. induction l as [|x l IH]; cbn [map List.filter]; intros N; auto.
  inversion N as [|? ? Hx Hl]; subst. destruct (p x); [|auto].
  cbn [map]. constructor; [|auto]. intros H. apply Hx.
  apply in_map_iff in H. destruct H as [y [Ey Hy]].
  apply filter_In in Hy. destruct Hy as [Hy _].
  apply in_map_iff. exists y. auto.
Qed.

Lemma NoDup_map_remove_first : forall (B : Type) (f : document -> B) p st,
  NoDup (map f st) -> NoDup (map f (remove_first p st)).
Proof.
  intros B f p st. induction st as [|x st IH]; cbn [map remove_first];
    intros N; auto.
  inversion N as [|? ? Hx Hl]; subst. destruct (p x); [exact Hl|].
  cbn [map]. constructor; [|auto]. intros H. apply Hx.
  apply in_map_iff in H. destruct H as [y [Ey Hy]].
  apply remove_first_in in Hy. apply in_map_iff. exists y. auto.
Qed.

Lemma NoDup_snoc : forall (B : Type) (l : list B) x,
  NoDup l -> ~ In x l -> NoDup (l ++ [x]).
Proof.
  intros B l x N H. induction N as [|y l Hy N IH]; cbn [app].
  - constructor; [intros [] | constructor].
  - constructor.
    + intros Hin. apply in_app_or in Hin. destruct Hin as [Hin|[<-|[]]]; auto.
      apply H. left. reflexivity.
    + apply IH. intros Hx. apply H. right. exact Hx.
Qed.

Lemma run_call_ids_distinct : forall call st,
  NoDup (map (lookup "_id") st) ->
  NoDup (map (lookup "_id") (run_call call st)).
Proof.
  intros call st N. destruct call; simpl.
  - destruct (create_cases c st) as [[e E]|[st' E]]; rewrite E; cbn [snd]; auto.
    destruct (create_ok_inv _ _ E) as (i & -> & Hfree & _).
    rewrite map_app. cbn [map]. apply NoDup_snoc; [exact N|].
    change (lookup "_id" (("_id", value_of_ident i) :: _))
      with (Some (value_of_ident i)).
    intros H. apply in_map_iff in H. destruct H as [e [Ee He]].
    specialize (Hfree e He). unfold index_key in Hfree. rewrite Ee in Hfree.
    rewrite value_eqb_refl in Hfree. discriminate.
  - unfold MongoConversationRepository.update.
    rewrite update_one_keeps_field; [exact N|].
    repeat (constructor; [cbn [set_target]; discriminate|]). constructor.
  - unfold MongoConversationRepository.update_agent_field.
    rewrite update_many_keeps_field; [exact N|].
    repeat (constructor; [cbn [set_target]; discriminate|]). constructor.
  - apply NoDup_map_filter. exact N.
  - apply NoDup_map_filter. exact N.
  - unfold MongoConversationRepository.delete_by_id.
    destruct (ObjectId s); simpl; [|exact N].
    apply NoDup_map_remove_first. exact N.
Qed.

(** X8: in a collection reached from the empty one through the
    repository's own calls, every record has an identifier and no two
    records have the same one. *)
Theorem written_ids_distinct : forall st,
  written st ->
  NoDup (map (lookup "_id") st)
  /\ forall d, In d st -> lookup "_id" d <> None.
Proof.
  intros st W. split.
  - induction W as [|call st W IH]; [constructor|].
    apply run_call_ids_distinct. exact IH.
  - intros d Hd. destruct (@in_readable st d (written_readable W) Hd) as [c S].
    destruct (stores_inv S) as (l & i & s & _ & _ & _ & Hi & _).
    congruence.
Qed.

Lemma written_ids_distinct_witness :
  let c := mkConversation "bot" [mkMessage "user" "hi"] None in
  let st := run_call (CallCreate c)
              (run_call (CallDeleteById "000000000000000000000001")
                 (run_call (CallCreate c) (run_call (CallCreate c) []))) in
  written st /\
  map (lookup "_id") st = [Some (VOid 2); Some (VOid 3)] /\
  NoDup (map (lookup "_id") st).
Proof.
  intros c st.
  assert (W : written st) by (repeat constructor).
  split; [exact W|]. split; [reflexivity|].
  exact (proj1 (written_ids_distinct W)).
Defined.

(** ** Conversations: deleting by agent name, looking up by identifier *)

Lemma filter_after_delete : forall (p : document -> bool) st,
  List.filter p (List.filter (fun d => negb (p d)) st) = [].
Proof.
  intros p st. induction st as [|d st IH]; [reflexivity|].
  cbn [List.filter]. destruct (p d) eqn:E; cbn [negb List.filter]; [exact IH|].
  rewrite E. exact IH.
Qed.

(** X9: on any collection, after [delete_by_agent_name n] the call
    [get_by_agent_name n] returns the empty list without raising, and the
    collection holds exactly the documents the filter [{agent_name: n}] did
    not select; [get_by_agent_name] also returns the empty list whenever
    the filter selects nothing. *)
Theorem delete_by_agent_name_then_get : forall n st,
  (selects_none [("agent_name", VStr n)] st ->
   MongoConversationRepository.get_by_agent_name n st = (Ok [], st))
  /\ exists st',
       MongoConversationRepository.delete_by_agent_name n st = (Ok tt, st')
       /\ MongoConversationRepository.get_by_agent_name n st' = (Ok [], st')
       /\ forall d, In d st'
                    <-> In d st /\ matches [("agent_name", VStr n)] d = false.
Proof.
  intros n st. split.
  - intros H. unfold MongoConversationRepository.get_by_agent_name, bind, find, lift.
    replace (List.filter (matches [("agent_name", VStr n)]) st) with (@nil document);
      [reflexivity|].
    symmetry. induction st as [|d st IH]; [reflexivity|].
    cbn [List.filter]. rewrite (H d (or_introl eq_refl)). apply IH.
    intros e He. apply H. right. exact He.
  - eexists. split; [reflexivity|]. split.
    + unfold MongoConversationRepository.get_by_agent_name, bind, find, lift.
      rewrite filter_after_delete. reflexivity.
    + intros d. rewrite filter_In, negb_true_iff. reflexivity.
Qed.

Lemma delete_by_agent_name_then_get_witness :
  let st := [[("_id", VOid 1); ("agent_name", VStr "bot"); ("messages", VArr [])];
             [("_id", VOid 2); ("broken", VNull)]] in
  selects_none [("agent_name", VStr "ghost")] st /\
  MongoConversationRepository.get_by_agent_name "ghost" st = (Ok [], st).
Proof.
  intros st.
  assert (H : selects_none [("agent_name", VStr "ghost")] st) by none_selected.
  split; [exact H|].
  exact (proj1 (delete_by_agent_name_then_get "ghost" st) H).
Defined.

(** X10: [get_by_id] never changes the collection; on a string the
    [ObjectId] constructor rejects (its length is not 24, or it is not made
    of two-digit hex bytes separated by ASCII whitespace only) it raises
    [InvalidId]; on a string the constructor accepts whose identifier
    selects no record it raises the [ValueError] "does not exist". *)
Theorem get_by_id_failures : forall s st,
  snd (MongoConversationRepository.get_by_id s st) = st
  /\ (String.length s <> 24 \/ ~ hex_pairs s ->
      fst (MongoConversationRepository.get_by_id s st) = Raise InvalidId)
  /\ (forall o,
        ObjectId s = Some o ->
        selects_none [("_id", VOid o)] st ->
        fst (MongoConversationRepository.get_by_id s st)
        = Raise (ValueError ("Conversation with id " ++ s ++ " does not exist."))).
Proof.
  intros s st. unfold MongoConversationRepository.get_by_id. repeat split.
  - destruct (ObjectId s) as [o|]; [|reflexivity].
    unfold bind, find_one. destruct (found (List.find _ st)); reflexivity.
  - intros H. apply ObjectId_none_iff in H. rewrite H. reflexivity.
  - intros o E H. rewrite E. unfold bind, find_one.
    rewrite (proj2 (find_none_iff _ _) H). reflexivity.
Qed.

Lemma get_by_id_failures_witness :
  let st := [[("_id", VOid 1); ("agent_name", VStr "bot"); ("messages", VArr [])]] in
  (String.length "c1" <> 24 \/ ~ hex_pairs "c1") /\
  fst (MongoConversationRepository.get_by_id "c1" st) = Raise InvalidId /\
  ObjectId "000000000000000000000002" = Some 2%N /\
  fst (MongoConversationRepository.get_by_id "000000000000000000000002" st)
  = Raise (ValueError
             "Conversation with id 000000000000000000000002 does not exist.") /\
  fst (MongoConversationRepository.get_by_id "50 7f 1f 77 bc f8 6c d7 " st)
  = Raise (ValueError
             "Conversation with id 50 7f 1f 77 bc f8 6c d7  does not exist.").
Proof.
  intros st.
  destruct (get_by_id_failures "c1" st) as (_ & H1 & _).
  destruct (get_by_id_failures "000000000000000000000002" st) as (_ & _ & H2).
  destruct (get_by_id_failures "50 7f 1f 77 bc f8 6c d7 " st) as (_ & _ & H3).
  assert (L : String.length "c1" <> 24 \/ ~ hex_pairs "c1")
    by (left; discriminate).
  split; [exact L|]. split; [exact (H1 L)|].
  split; [reflexivity|].
  split; [apply (H2 2%N); [reflexivity | none_selected]|].
  eapply H3; [reflexivity | none_selected].
Defined.

Lemma get_by_id_returns_native_id_witness :
  let st := [[("_id", VOid 1); ("agent_name", VStr "bot"); ("messages", VArr [])]] in
  MongoConversationRepository.get_by_id "000000000000000000000001" st
  = (Ok (mkConversation "bot" [] (Some (IdOid 1))), st) /\
  exists o, ObjectId "000000000000000000000001" = Some o
            /\ Some (IdOid 1) = Some (IdOid o).
Proof.
  intros st.
  assert (E : MongoConversationRepository.get_by_id "000000000000000000000001" st
              = (Ok (mkConversation "bot" [] (Some (IdOid 1))), st))
    by reflexivity.
  split; [exact E|].
  exact (get_by_id_returns_native_id _ _ E).
Defined.

Lemma create_explicit_id_witness :
  let c := mkConversation "bot" [mkMessage "user" "hi"] (Some (IdStr "c1")) in
  let st := [[("_id", VStr "c0"); ("agent_name", VStr "bot"); ("messages", VArr [])]] in
  List.find (matches [("id", VStr "c1")]) st = None /\
  ~ has_record_id (VStr "c1") st /\
  MongoConversationRepository.create c st
  = (Ok tt, (st ++ [[("_id", VStr "c1"); ("agent_name", VStr "bot");
                     ("messages", messages_value [mkMessage "user" "hi"])]])%list).
Proof.
  intros c st.
  assert (F : List.find (matches [("id", value_of_ident (IdStr "c1"))]) st = None)
    by reflexivity.
  assert (H : ~ has_record_id (value_of_ident (IdStr "c1")) st).
  { intros [d [[<-|[]] Hd]]. discriminate Hd. }
  split; [exact F|]. split; [exact H|].
  exact (proj2 (proj2 (@create_explicit_id c (IdStr "c1") st eq_refl eq_refl)) F H).
Defined.

(** ** Conversations: identifiers across create, read, update, delete *)

(** Among conversation documents, a filter on [_id] selects the documents
    whose identifier is the queried value. *)
Lemma matches_id : forall d c v,
  stores d c ->
  matches [("_id", v)] d = value_eqb (index_key "_id" d) v.
Proof.
  intros d c v S. destruct (stores_inv S) as (l & i & s & _ & _ & _ & Hi & Hs & _).
  unfold matches, cond_holds, index_key. cbn [forallb fst snd]. rewrite Hi.
  unfold value_matches. rewrite andb_true_r.
  destruct i; try discriminate Hs; rewrite orb_false_r; reflexivity.
Qed.

Lemma py_str_ident : forall i, py_str (value_of_ident i) = Ok (ident_str i).
Proof. intros [s|o]; reflexivity. Qed.

Lemma update_one_app_last : forall q ops st d d',
  (forall e, In e st -> matches q e = false) ->
  matches q d = true ->
  apply_sets ops d = Some d' ->
  update_one q ops (st ++ [d])%list = (Ok tt, (st ++ [d'])%list).
Proof.
  intros q ops st d d' H Hd E. induction st as [|e st IH]; cbn [app update_one].
  - rewrite Hd, E. reflexivity.
  - rewrite (H e (or_introl eq_refl)), IH; [reflexivity|].
    intros x Hx. apply H. right. exact Hx.
Qed.

Lemma in_stores : forall st cs e,
  Forall2 stores st cs -> In e st -> exists c, stores e c.
Proof.
  intros st cs e F. induction F as [|d c st cs S F IH]; intros H; [destruct H|].
  destruct H as [<-|H]; [exists c; exact S | auto].
Qed.

(** X11: on a collection of conversation documents, a conversation that
    [create] stored under an explicit identifier can be passed to [update]
    as is: the record it created gets the agent name and the messages of
    the updated conversation and keeps its identifier, and the records
    that were there before are untouched. *)
Theorem update_after_create_explicit : forall st cs c i updated st',
  Forall2 stores st cs ->
  id c = Some i ->
  id_is_set (id c) = true ->
  MongoConversationRepository.create c st = (Ok tt, st') ->
  exists d',
    MongoConversationRepository.update c updated st'
    = (Ok tt, (st ++ [d'])%list)
    /\ MongoConversationRepository.get_all (st ++ [d'])%list
       = (Ok (cs ++ [mkConversation (agent_name updated) (messages updated)
                                    (Some (IdStr (ident_str i)))])%list,
          (st ++ [d'])%list).
Proof.
  intros st cs c i updated st' F Hi Hset H.
  destruct (create_ok_inv _ _ H) as (j & -> & Hfree & Hj & _).
  specialize (Hj Hset). rewrite Hi in Hj. injection Hj as <-.
  destruct (created_document_stores i (agent_name c) (messages c))
    as (s & Hs & S).
  rewrite py_str_ident in Hs. injection Hs as <-.
  destruct (update_document updated S) as (d' & E & S').
  exists d'. split.
  - unfold MongoConversationRepository.update. rewrite Hi.
    apply update_one_app_last; [| |exact E].
    + intros e He. destruct (in_stores e F He) as [ce Se].
      rewrite (matches_id (value_of_ident i) Se). apply Hfree. exact He.
    + rewrite (matches_id (value_of_ident i) S). apply value_eqb_refl.
  - apply get_all_of_stores. apply Forall2_app; [exact F|].
    constructor; [exact S' | constructor].
Qed.

Lemma update_after_create_explicit_witness :
  let c := mkConversation "bot" [mkMessage "user" "hi"] (Some (IdStr "c1")) in
  let updated := mkConversation "bot2" [mkMessage "user" "bye"] None in
  let st' := snd (MongoConversationRepository.create c []) in
  MongoConversationRepository.create c [] = (Ok tt, st') /\
  exists d',
    MongoConversationRepository.update c updated st' = (Ok tt, [d'])
    /\ MongoConversationRepository.get_all [d']
       = (Ok [mkConversation "bot2" [mkMessage "user" "bye"] (Some (IdStr "c1"))],
          [d']).
Proof.
  intros c updated st'.
  assert (E : MongoConversationRepository.create c [] = (Ok tt, st'))
    by reflexivity.
  split; [exact E|].
  exact (@update_after_create_explicit [] [] c (IdStr "c1") updated st'
           (Forall2_nil _) eq_refl eq_refl E).
Defined.

(** X12: with the identifier unset ([None] or the empty string),
    [create] never raises: it appends the record under a store-assigned
    [ObjectId] that no stored record has. *)
Theorem create_without_id : forall c st,
  id_is_set (id c) = false ->
  MongoConversationRepository.create c st
  = (Ok tt, (st ++ [[("_id", VOid (fresh_oid st));
                     ("agent_name", VStr (agent_name c));
                     ("messages", messages_value (messages c))]])%list)
  /\ forall e, In e st -> lookup "_id" e <> Some (VOid (fresh_oid st)).
Proof.
  intros c st H. unfold MongoConversationRepository.create. rewrite H. split.
  - apply insert_one_fresh. reflexivity.
  - intros e He E. pose proof (fresh_oid_unused st e He) as U.
    unfold index_key in U. rewrite E, value_eqb_refl in U. discriminate.
Qed.

Lemma create_without_id_witness :
  let c := mkConversation "bot" [mkMessage "user" "hi"] (Some (IdStr "")) in
  let st := [[("_id", VOid 7); ("agent_name", VStr "bot"); ("messages", VArr [])]] in
  id_is_set (id c) = false /\
  MongoConversationRepository.create c st
  = (Ok tt, (st ++ [[("_id", VOid 8); ("agent_name", VStr "bot");
                     ("messages", messages_value [mkMessage "user" "hi"])]])%list).
Proof.
  intros c st. split; [reflexivity|].
  exact (proj1 (@create_without_id c st eq_refl)).
Defined.

Lemma get_by_id_of_last : forall st cs x o n ms,
  Forall2 stores st cs ->
  (forall e, In e st -> value_eqb (index_key "_id" e) (VOid o) = false) ->
  ObjectId x = Some o ->
  MongoConversationRepository.get_by_id x
    (st ++ [[("_id", VOid o); ("agent_name", VStr n);
             ("messages", messages_value ms)]])%list
  = (Ok (mkConversation n ms (Some (IdOid o))),
     (st ++ [[("_id", VOid o); ("agent_name", VStr n);
              ("messages", messages_value ms)]])%list).
Proof.
  intros st cs x o n ms F Hfree Hx.
  destruct (created_document_stores (IdOid o) n ms) as (s & _ & S).
  cbn [value_of_ident] in S.
  unfold MongoConversationRepository.get_by_id. rewrite Hx.
  unfold bind, find_one. rewrite find_app_none.
  - cbn [List.find]. rewrite (matches_id (VOid o) S).
    unfold index_key. cbn [lookup String.eqb Ascii.eqb Bool.eqb].
    rewrite value_eqb_refl. cbn [found]. unfold lift, messages_of_doc, subscript.
    cbn [lookup String.eqb Ascii.eqb Bool.eqb obind iterate messages_value].
    rewrite messages_roundtrip. reflexivity.
  - apply find_none_iff. intros e He.
    destruct (in_stores e F He) as [ce Se].
    rewrite (matches_id (VOid o) Se). apply Hfree. exact He.
Qed.

(** X13: on a collection of conversation documents, for a conversation
    created without identifier (the assigned [ObjectId] being one of twelve
    bytes), the identifier string that [get_all] reports for it works on
    the id-keyed paths that convert it: [get_by_id] under that string
    returns the conversation with its messages, and [delete_by_id] under it
    removes exactly that record. *)
Theorem assigned_id_round_trip : forall st cs c,
  Forall2 stores st cs ->
  id_is_set (id c) = false ->
  (fresh_oid st < 2 ^ 96)%N ->
  exists st',
    MongoConversationRepository.create c st = (Ok tt, st')
    /\ MongoConversationRepository.get_all st'
       = (Ok (cs ++ [mkConversation (agent_name c) (messages c)
                       (Some (IdStr (oid_str (fresh_oid st))))])%list, st')
    /\ MongoConversationRepository.get_by_id (oid_str (fresh_oid st)) st'
       = (Ok (mkConversation (agent_name c) (messages c)
                             (Some (IdOid (fresh_oid st)))), st')
    /\ MongoConversationRepository.delete_by_id (oid_str (fresh_oid st)) st'
       = (Ok tt, st).
Proof.
  intros st cs c F Hset Hb.
  assert (E : MongoConversationRepository.create c st
              = (Ok tt, (st ++ [[("_id", VOid (fresh_oid st));
                                 ("agent_name", VStr (agent_name c));
                                 ("messages", messages_value (messages c))]])%list)).
  { unfold MongoConversationRepository.create. rewrite Hset.
    apply insert_one_fresh. reflexivity. }
  eexists. split; [exact E|].
  pose proof (ObjectId_oid_str Hb) as Hx.
  destruct (created_document_stores (IdOid (fresh_oid st)) (agent_name c)
              (messages c)) as (s & Hs & S).
  cbn [value_of_ident py_str] in *. injection Hs as <-.
  assert (U : forall e, In e st ->
                value_eqb (index_key "_id" e) (VOid (fresh_oid st)) = false)
    by (intros e He; apply fresh_oid_unused; exact He).
  split; [|split].
  - apply get_all_of_stores. apply Forall2_app; [exact F|].
    constructor; [exact S | constructor].
  - apply (@get_by_id_of_last st cs _ _ (agent_name c) (messages c) F U Hx).
  - unfold MongoConversationRepository.delete_by_id. rewrite Hx.
    unfold delete_one. f_equal. apply remove_first_app_last.
    + intros e He. destruct (in_stores e F He) as [ce Se].
      rewrite (matches_id (VOid (fresh_oid st)) Se). apply U. exact He.
    + rewrite (matches_id (VOid (fresh_oid st)) S). apply value_eqb_refl.
Qed.

Lemma assigned_id_round_trip_witness :
  let c := mkConversation "bot" [mkMessage "user" "hi"] None in
  let st := [[("_id", VStr "c1"); ("agent_name", VStr "other");
              ("messages", messages_value [])]] in
  let cs := [mkConversation "other" [] (Some (IdStr "c1"))] in
  Forall2 stores st cs /\
  (fresh_oid st < 2 ^ 96)%N /\
  oid_str (fresh_oid st) = "000000000000000000000001" /\
  exists st',
    MongoConversationRepository.create c st = (Ok tt, st')
    /\ MongoConversationRepository.get_all st'
       = (Ok (cs ++ [mkConversation "bot" [mkMessage "user" "hi"]
                       (Some (IdStr (oid_str (fresh_oid st))))])%list, st')
    /\ MongoConversationRepository.get_by_id (oid_str (fresh_oid st)) st'
       = (Ok (mkConversation "bot" [mkMessage "user" "hi"]
                             (Some (IdOid (fresh_oid st)))), st')
    /\ MongoConversationRepository.delete_by_id (oid_str (fresh_oid st)) st'
       = (Ok tt, st).
Proof.
  intros c st cs.
  assert (F : Forall2 stores st cs).
  { repeat constructor; eexists; reflexivity. }
  assert (B : (fresh_oid st < 2 ^ 96)%N) by reflexivity.
  split; [exact F|]. split; [exact B|]. split; [reflexivity|].
  exact (@assigned_id_round_trip st cs c F eq_refl B).
Defined.

(** ** Conversations: repeating [update_agent_field] *)

Lemma set_field_same : forall k v d,
  lookup k d = Some v -> set_field k v d = d.
Proof.
  intros k v d. induction d as [|[j w] d IH]; cbn [lookup set_field];
    [discriminate|].
  destruct (String.eqb j k); intros H.
  - injection H as ->. reflexivity.
  - rewrite (IH H). reflexivity.
Qed.

Lemma set_in_elem_twice : forall filt v e,
  fst filt <> "content" ->
  set_in_elem filt "content" v (set_in_elem filt "content" v e)
  = set_in_elem filt "content" v e.
Proof.
  intros filt v e Hk. destruct e as [| | | |m]; try reflexivity.
  cbn [set_in_elem]. destruct (cond_holds m filt) eqn:C.
  - cbn [set_in_elem].
    assert (C' : cond_holds (set_field "content" v m) filt = true).
    { unfold cond_holds in *. rewrite lookup_set_other by exact Hk. exact C. }
    rewrite C'. f_equal. apply set_field_same. apply lookup_set_same.
  - cbn [set_in_elem]. rewrite C. reflexivity.
Qed.

(** The document [update_agent_field] writes is a fixed point of its
    [$set]. *)
Lemma retarget_twice : forall updated d d1,
  apply_sets
    [SetField "agent_name" (VStr (name updated));
     SetInArray "messages" ("role", VStr "system")
                "content" (VStr (system_prompt updated))] d = Some d1 ->
  apply_sets
    [SetField "agent_name" (VStr (name updated));
     SetInArray "messages" ("role", VStr "system")
                "content" (VStr (system_prompt updated))] d1 = Some d1.
Proof.
  intros updated d d1. cbn [apply_sets apply_set].
  rewrite lookup_set_other by discriminate.
  destruct (lookup "messages" d) as [[| | |l|]|]; try discriminate.
  intros E. injection E as <-.
  rewrite (lookup_set_other (k:="agent_name") (j:="messages")) by discriminate.
  rewrite !lookup_set_same.
  set (f := set_in_elem ("role", VStr "system") "content"
                        (VStr (system_prompt updated))).
  set (d1 := set_field "messages" (VArr (map f l))
               (set_field "agent_name" (VStr (name updated)) d)).
  assert (H1 : lookup "agent_name" d1 = Some (VStr (name updated))).
  { unfold d1. rewrite lookup_set_other by discriminate. apply lookup_set_same. }
  rewrite (set_field_same _ _ H1).
  assert (H2 : map f (map f l) = map f l).
  { rewrite map_map. apply map_ext. intros e. unfold f.
    apply set_in_elem_twice. discriminate. }
  rewrite H2. f_equal. apply set_field_same. unfold d1. apply lookup_set_same.
Qed.

(** X14: on a collection of conversation documents, [update_agent_field]
    with the same two agents a second time returns normally and leaves the
    collection exactly as the first call left it. *)
Theorem update_agent_field_twice : forall current updated st cs,
  Forall2 stores st cs ->
  exists st',
    MongoConversationRepository.update_agent_field current updated st
    = (Ok tt, st')
    /\ MongoConversationRepository.update_agent_field current updated st'
       = (Ok tt, st').
Proof.
  intros current updated st cs F.
  unfold MongoConversationRepository.update_agent_field.
  induction F as [|d c st cs S F IH].
  - exists []. split; reflexivity.
  - destruct IH as (st' & E1 & E2). cbn [update_many].
    destruct (matches [("agent_name", VStr (name current))] d) eqn:Md.
    + destruct (retarget_document updated S) as (d1 & Ed & _).
      rewrite Ed, E1. exists (d1 :: st'). split; [reflexivity|].
      cbn [update_many]. rewrite (retarget_twice _ _ Ed), E2.
      destruct (matches [("agent_name", VStr (name current))] d1); reflexivity.
    + rewrite E1. exists (d :: st'). split; [reflexivity|].
      cbn [update_many]. rewrite Md, E2. reflexivity.
Qed.

Lemma update_agent_field_twice_witness :
  let ms := [mkMessage "system" "You are helpful"; mkMessage "user" "hi"] in
  let st := [[("_id", VOid 1); ("agent_name", VStr "bot");
              ("messages", messages_value ms)]] in
  Forall2 stores st [mkConversation "bot" ms (Some (IdStr "000000000000000000000001"))] /\
  exists st',
    MongoConversationRepository.update_agent_field
      (mkAgent "bot" "" []) (mkAgent "bot" "Be terse" []) st = (Ok tt, st')
    /\ MongoConversationRepository.update_agent_field
         (mkAgent "bot" "" []) (mkAgent "bot" "Be terse" []) st' = (Ok tt, st').
Proof.
  intros ms st.
  assert (F : Forall2 stores st
                [mkConversation "bot" ms (Some (IdStr "000000000000000000000001"))]).
  { repeat constructor; eexists; reflexivity. }
  split; [exact F|].
  exact (update_agent_field_twice (mkAgent "bot" "" [])
           (mkAgent "bot" "Be terse" []) F).
Defined.

(** ** The archive: deleting and listing by agent *)

(** X15: on any archive, after [delete_conversations_by_agent_object]
    for an agent, [get_conversations_by_agent_object] for that agent
    returns the empty list, and the archive holds exactly the documents the
    filter [{agent_name: agent.name}] did not select. *)
Theorem backup_delete_then_get : forall a st,
  exists st',
    MongoBackupRepository.delete_conversations_by_agent_object a st = (Ok tt, st')
    /\ MongoBackupRepository.get_conversations_by_agent_object a st' = (Ok [], st')
    /\ forall d, In d st'
                 <-> In d st /\ matches [("agent_name", VStr (name a))] d = false.
Proof.
  intros a st. eexists. split; [reflexivity|]. split.
  - unfold MongoBackupRepository.get_conversations_by_agent_object, find.
    rewrite filter_after_delete. reflexivity.
  - intros d. rewrite filter_In, negb_true_iff. reflexivity.
Qed.

(** ** Recovering raw documents *)

Lemma insert_one_distinct : forall d v st,
  lookup "_id" d = Some v ->
  (forall l, v <> VArr l) ->
  ~ In v (map (index_key "_id") st) ->
  insert_one [] d st = (Ok tt, (st ++ [d])%list).
Proof.
  intros d v st Hv Harr Hin. unfold insert_one. rewrite Hv.
  replace (existsb (collides [] d) st) with false.
  - destruct v; try reflexivity. exfalso. eapply Harr. reflexivity.
  - symmetry. apply existsb_false_iff. intros e He.
    unfold collides. cbn [existsb]. rewrite orb_false_r.
    apply value_eqb_neq. intros E. apply Hin. apply in_map_iff.
    exists e. split; [|exact He]. rewrite E. unfold index_key. rewrite Hv.
    reflexivity.
Qed.

Lemma insert_each_distinct : forall ds st,
  Forall (fun d => exists v, lookup "_id" d = Some v /\ forall l, v <> VArr l) ds ->
  NoDup (map (index_key "_id") (st ++ ds)) ->
  insert_each [] ds st = (Ok tt, (st ++ ds)%list).
Proof.
  induction ds as [|d ds IH]; intros st F N; cbn [insert_each].
  - rewrite app_nil_r. reflexivity.
  - inversion F as [|? ? [v [Hv Harr]] F']; subst.
    rewrite (insert_one_distinct d st Hv Harr).
    + replace (st ++ d :: ds)%list with ((st ++ [d]) ++ ds)%list
        by (rewrite <- app_assoc; reflexivity).
      apply IH; [exact F'|]. rewrite <- app_assoc. exact N.
    + assert (K : index_key "_id" d = v) by (unfold index_key; rewrite Hv; reflexivity).
      rewrite map_app in N. cbn [map] in N. rewrite K in N.
      apply NoDup_remove_2 in N. intros H. apply N. apply in_or_app. left.
      exact H.
Qed.

(** X16: [recover] takes documents as they are: when the documents carry
    identifiers that are distinct from one another and from those of the
    stored documents, a non-empty list is appended unchanged and in order;
    the empty list is refused with a [TypeError] and nothing changes. *)
Theorem recover_appends_documents : forall ds st,
  Forall (fun d => exists v, lookup "_id" d = Some v /\ forall l, v <> VArr l) ds ->
  NoDup (map (index_key "_id") (st ++ ds)) ->
  MongoConversationRepository.recover ds st
  = match ds with
    | [] => (Raise TypeError, st)
    | _ => (Ok tt, (st ++ ds)%list)
    end.
Proof.
  intros ds st F N. unfold MongoConversationRepository.recover, insert_many.
  destruct ds as [|d ds]; [reflexivity|].
  apply insert_each_distinct; assumption.
Qed.

Lemma recover_appends_documents_witness :
  let st := [[("_id", VOid 1); ("agent_name", VStr "bot"); ("messages", VArr [])]] in
  let ds := [[("_id", VOid 5); ("agent_name", VStr "bot"); ("messages", VArr [])];
             [("_id", VStr "c1"); ("anything", VNull)]] in
  MongoConversationRepository.recover ds st = (Ok tt, (st ++ ds)%list).
Proof.
  intros st ds.
  apply (@recover_appends_documents ds st).
  - repeat constructor; eexists; (split; [reflexivity | discriminate]).
  - repeat constructor; cbn; intuition discriminate.
Defined.

Lemma insert_one_duplicate : forall d v st,
  lookup "_id" d = Some v ->
  (forall l, v <> VArr l) ->
  In v (map (index_key "_id") st) ->
  insert_one [] d st = (Raise DuplicateKeyError, st).
Proof.
  intros d v st Hv Harr Hin. unfold insert_one. rewrite Hv.
  replace (existsb (collides [] d) st) with true.
  - destruct v; try reflexivity. exfalso. eapply Harr. reflexivity.
  - symmetry. apply existsb_exists. apply in_map_iff in Hin.
    destruct Hin as [e [Ee He]]. exists e. split; [exact He|].
    unfold collides. cbn [existsb]. rewrite orb_false_r, Ee.
    unfold index_key. rewrite Hv. apply value_eqb_refl.
Qed.

Lemma insert_each_stops : forall idx ds1 d ds2 st st1 e st2,
  insert_each idx ds1 st = (Ok tt, st1) ->
  insert_one idx d st1 = (Raise e, st2) ->
  insert_each idx (ds1 ++ d :: ds2) st = (Raise BulkWriteError, st2).
Proof.
  intros idx ds1 d ds2. induction ds1 as [|x ds1 IH]; intros st st1 e st2 H1 H2.
  - cbn in H1. injection H1 as <-. cbn [app insert_each]. rewrite H2. reflexivity.
  - cbn [app insert_each] in *.
    destruct (insert_one idx x st) as [[[]|ex] sx]; [|discriminate].
    eapply IH; eauto.
Qed.

(** X20: [recover] is not all-or-nothing: when a document of the list
    carries the identifier of a document that is stored or was just
    recovered, the call raises [BulkWriteError], the documents before it
    stay inserted, and it and those after it are not. *)
Theorem recover_stops_at_duplicate : forall ds1 d ds2 v st,
  Forall (fun d => exists v, lookup "_id" d = Some v /\ forall l, v <> VArr l) ds1 ->
  NoDup (map (index_key "_id") (st ++ ds1)) ->
  lookup "_id" d = Some v ->
  (forall l, v <> VArr l) ->
  In v (map (index_key "_id") (st ++ ds1)) ->
  MongoConversationRepository.recover (ds1 ++ d :: ds2) st
  = (Raise BulkWriteError, (st ++ ds1)%list).
Proof.
  intros ds1 d ds2 v st F N Hv Harr Hin.
  unfold MongoConversationRepository.recover, insert_many.
  assert (E : insert_each MongoConversationRepository.indexes (ds1 ++ d :: ds2) st
              = (Raise BulkWriteError, (st ++ ds1)%list)).
  { eapply insert_each_stops.
    - apply insert_each_distinct; eassumption.
    - eapply insert_one_duplicate; eassumption. }
  destruct (ds1 ++ d :: ds2)%list eqn:L; [|exact E].
  destruct ds1; discriminate L.
Qed.

Lemma recover_stops_at_duplicate_witness :
  let st := [[("_id", VOid 1); ("agent_name", VStr "bot"); ("messages", VArr [])]] in
  let d5 := [("_id", VOid 5); ("agent_name", VStr "bot"); ("messages", VArr [])] in
  let d1 := [("_id", VOid 1); ("agent_name", VStr "other"); ("messages", VArr [])] in
  let d6 := [("_id", VOid 6); ("agent_name", VStr "bot"); ("messages", VArr [])] in
  MongoConversationRepository.recover [d5; d1; d6] st
  = (Raise BulkWriteError, [[("_id", VOid 1); ("agent_name", VStr "bot");
                             ("messages", VArr [])]; d5]).
Proof.
  intros st d5 d1 d6.
  apply (@recover_stops_at_duplicate [d5] d1 [d6] (VOid 1) st).
  - repeat constructor; eexists; (split; [reflexivity | discriminate]).
  - repeat constructor; cbn; intuition discriminate.
  - reflexivity.
  - discriminate.
  - left. reflexivity.
Defined.

(** ** Agents: what the repository's own calls maintain *)

Lemma agent_create_cases : forall a st,
  (exists e, MongoAgentRepository.create a st = (Raise e, st))
  \/ MongoAgentRepository.create a st
     = (Ok tt, (st ++ [("_id", VOid (fresh_oid st))
                       :: MongoAgentRepository.agent_document a])%list)
     /\ ~ has_agent_named (name a) st.
Proof.
  intros a st.
  destruct (MongoAgentRepository.create a st) as [[[]|e] st'] eqn:E.
  - right. destruct (agent_create_ok_inv _ _ E) as [-> H]. auto.
  - left. exists e. f_equal.
    unfold MongoAgentRepository.create, try_except in E.
    destruct (insert_one_cases MongoAgentRepository.indexes
                (MongoAgentRepository.agent_document a) st) as [[e0 H]|[st0 H]];
      rewrite H in E; [|discriminate].
    destruct (MongoAgentRepository.is_duplicate_key e0); unfold raise in E;
      congruence.
Qed.

Lemma NoDup_insert_middle : forall (B : Type) (l l' : list B) x,
  NoDup (l ++ l') -> ~ In x (l ++ l') -> NoDup (l ++ x :: l').
Proof.
  intros B l l' x. induction l as [|y l IH]; cbn [app]; intros N H.
  - constructor; assumption.
  - inversion N as [|? ? Hy N']; subst. constructor.
    + intros Hin. apply in_app_or in Hin. destruct Hin as [Hin|[<-|Hin]].
      * apply Hy. apply in_or_app. auto.
      * apply H. left. reflexivity.
      * apply Hy. apply in_or_app. auto.
    + apply IH; [exact N'|]. intros Hx. apply H. right. exact Hx.
Qed.

Lemma remove_first_split : forall (p : document -> bool) st,
  match split_first p st with
  | Some (pre, _, post) => remove_first p st = (pre ++ post)%list
  | None => remove_first p st = st
  end.
Proof.
  intros p st. induction st as [|d st IH]; cbn [split_first remove_first];
    [reflexivity|].
  destruct (p d); [reflexivity|].
  destruct (split_first p st) as [[[pre e] post]|]; cbn [app]; rewrite IH;
    reflexivity.
Qed.

(** The invariant of the [agent] collection: agent documents, with
    pairwise distinct names. *)
Lemma run_agent_call_invariant : forall call st,
  Forall (fun d => exists a, agent_stored d a) st
  /\ NoDup (map (lookup "name") st) ->
  Forall (fun d => exists a, agent_stored d a) (run_agent_call call st)
  /\ NoDup (map (lookup "name") (run_agent_call call st)).
Proof.
  intros call st [R N]. destruct call as [a|current updated|a]; cbn [run_agent_call].
  - destruct (agent_create_cases a st) as [[e E]|[E H]]; rewrite E; cbn [snd];
      [auto|]. split.
    + apply Forall_app. split; [exact R|]. constructor; [|constructor].
      exists a. apply agent_of_created_doc.
    + rewrite map_app. cbn [map]. apply NoDup_snoc; [exact N|].
      change (lookup "name" (_ :: MongoAgentRepository.agent_document a))
        with (Some (VStr (name a))).
      intros Hin. apply in_map_iff in Hin. destruct Hin as [e [Ee He]].
      apply H. exists e. auto.
  - unfold MongoAgentRepository.update, update_one_unique.
    destruct (split_first _ st) as [[[pre d] post]|] eqn:E; cbn [snd]; [|auto].
    destruct (split_first_some _ _ E) as (-> & _ & _).
    destruct (agent_updated_doc updated d) as (d' & -> & Sd & _).
    destruct (key_taken MongoAgentRepository.indexes d' (pre ++ post)%list) eqn:K;
      cbn [snd]; [auto|].
    apply Forall_app in R. destruct R as [Rpre Rpost].
    inversion Rpost as [|? ? _ Rpost']; subst. split.
    + apply Forall_app. split; [exact Rpre|]. constructor; [eauto | exact Rpost'].
    + rewrite map_app in *. cbn [map] in *. apply NoDup_insert_middle.
      * eapply NoDup_remove_1. exact N.
      * rewrite <- map_app. intros Hin. apply in_map_iff in Hin.
        destruct Hin as [e [Ee He]].
        unfold key_taken in K. rewrite existsb_false_iff in K.
        specialize (K e He). unfold MongoAgentRepository.indexes in K.
        cbn [existsb] in K. rewrite orb_false_r in K. unfold index_key in K.
        rewrite Ee, (agent_stored_name Sd), value_eqb_refl in K. discriminate.
  - unfold MongoAgentRepository.delete, delete_one. cbn [snd]. split.
    + apply Forall_forall. intros d Hd. apply remove_first_in in Hd.
      rewrite Forall_forall in R. auto.
    + apply NoDup_map_remove_first. exact N.
Qed.

Lemma agents_written_invariant : forall st,
  agents_written st ->
  Forall (fun d => exists a, agent_stored d a) st
  /\ NoDup (map (lookup "name") st).
Proof.
  intros st W. induction W as [|call st W IH].
  - split; constructor.
  - apply run_agent_call_invariant. exact IH.
Qed.

(** X21: in an [agent] collection reached from the empty one through
    [create], [update] and [delete], [get_all] returns and no two of the
    agents it lists have the same name. *)
Theorem agents_written_names_distinct : forall st,
  agents_written st ->
  exists ags,
    MongoAgentRepository.get_all st = (Ok ags, st)
    /\ NoDup (map name ags).
Proof.
  intros st W. destruct (agents_written_invariant W) as [R N].
  assert (F : exists ags, Forall2 agent_stored st ags).
  { clear N W. induction R as [|d st [a S] R [ags F]].
    - exists []. constructor.
    - exists (a :: ags). constructor; assumption. }
  destruct F as [ags F]. exists ags. split.
  - unfold MongoAgentRepository.get_all, bind, find, lift.
    rewrite filter_all, (agent_stored_traverse F). reflexivity.
  - assert (E : map (lookup "name") st
                = map (fun n => Some (VStr n)) (map name ags)).
    { clear N R W. induction F as [|d a st ags S F IH]; [reflexivity|].
      cbn [map]. rewrite (agent_stored_name S), IH. reflexivity. }
    rewrite E in N. eapply NoDup_map_inv. exact N.
Qed.

Lemma agents_written_names_distinct_witness :
  let st := run_agent_call (AgentCreate (mkAgent "bot" "again" []))
              (run_agent_call (AgentUpdate (mkAgent "other" "" [])
                                           (mkAgent "bot" "taken" []))
                 (run_agent_call (AgentCreate (mkAgent "other" "x" []))
                    (run_agent_call (AgentCreate (mkAgent "bot" "first" [])) []))) in
  agents_written st /\
  exists ags,
    MongoAgentRepository.get_all st = (Ok ags, st)
    /\ NoDup (map name ags).
Proof.
  intros st.
  assert (W : agents_written st) by (repeat constructor).
  split; [exact W|]. exact (agents_written_names_distinct W).
Defined.

(** X22: in an [agent] collection reached from the empty one through
    [create], [update] and [delete], after [delete] of an agent no record
    is left under its name: [get_by_name] reports absence. *)
Theorem agent_delete_then_get : forall st a,
  agents_written st ->
  exists st',
    MongoAgentRepository.delete a st = (Ok tt, st')
    /\ MongoAgentRepository.get_by_name (name a) st' = (Ok None, st').
Proof.
  intros st a W. destruct (agents_written_invariant W) as [R N].
  eexists. split; [reflexivity|].
  set (q := [("name", VStr (name a))]).
  assert (S : selects_none q (remove_first (matches q) st)).
  { pose proof (remove_first_split (matches q) st) as Sp.
    destruct (split_first (matches q) st) as [[[pre d] post]|] eqn:E.
    - rewrite Sp. destruct (split_first_some _ _ E) as (Est & Hd & Hpre).
      intros e He. apply in_app_or in He. destruct He as [He|He]; [auto|].
      destruct (matches q e) eqn:Me; [exfalso | reflexivity].
      rewrite Est in R, N. rewrite Forall_forall in R.
      destruct (R d) as [ad Sd]; [apply in_or_app; right; left; reflexivity|].
      destruct (R e) as [ae Se]; [apply in_or_app; right; right; exact He|].
      unfold q in Hd, Me.
      rewrite (matches_name (name a) Sd) in Hd. apply String.eqb_eq in Hd.
      rewrite (matches_name (name a) Se) in Me. apply String.eqb_eq in Me.
      rewrite map_app in N. cbn [map] in N. apply NoDup_remove_2 in N.
      apply N. apply in_or_app. right. apply in_map_iff. exists e.
      split; [|exact He].
      rewrite (agent_stored_name Sd), (agent_stored_name Se). congruence.
    - rewrite Sp. intros e He.
      destruct (matches q e) eqn:Me; [exfalso | reflexivity].
      destruct (split_first_found (matches q) st e He Me) as (? & ? & ? & C).
      congruence. }
  unfold MongoAgentRepository.delete, delete_one, snd.
  unfold MongoAgentRepository.get_by_name, bind, find_one.
  fold q. rewrite (proj2 (find_none_iff _ _) S). reflexivity.
Qed.

Lemma agent_delete_then_get_witness :
  let bot := mkAgent "bot" "You are helpful" [] in
  let st := run_agent_call (AgentCreate (mkAgent "other" "x" []))
              (run_agent_call (AgentCreate bot) []) in
  agents_written st /\
  exists st',
    MongoAgentRepository.delete bot st = (Ok tt, st')
    /\ MongoAgentRepository.get_by_name "bot" st' = (Ok None, st').
Proof.
  intros bot st.
  assert (W : agents_written st) by (repeat constructor).
  split; [exact W|]. exact (agent_delete_then_get bot W).
Defined.

(** ** Conversations: deletion by identifier is final *)

Lemma written_ids_nodup : forall st,
  written st -> NoDup (map (lookup "_id") st).
Proof.
  intros st W. induction W as [|call st W IH]; [constructor|].
  apply run_call_ids_distinct. exact IH.
Qed.

(** X23: in a collection reached from the empty one through the
    repository's own calls, after [delete_by_id] under a well-formed
    identifier no record is left under it: [get_by_id] with the same
    string raises the [ValueError] "does not exist". *)
Theorem delete_by_id_then_get : forall st s o,
  written st ->
  ObjectId s = Some o ->
  exists st',
    MongoConversationRepository.delete_by_id s st = (Ok tt, st')
    /\ MongoConversationRepository.get_by_id s st'
       = (Raise (ValueError ("Conversation with id " ++ s ++ " does not exist.")),
          st').
Proof.
  intros st s o W Hs.
  pose proof (written_ids_nodup W) as N.
  pose proof (written_readable W) as R.
  unfold MongoConversationRepository.delete_by_id,
    MongoConversationRepository.get_by_id. rewrite Hs.
  eexists. split; [reflexivity|].
  set (q := [("_id", VOid o)]).
  assert (S : selects_none q (remove_first (matches q) st)).
  { pose proof (remove_first_split (matches q) st) as Sp.
    destruct (split_first (matches q) st) as [[[pre d] post]|] eqn:E.
    - rewrite Sp. destruct (split_first_some _ _ E) as (Est & Hd & Hpre).
      intros e He. apply in_app_or in He. destruct He as [He|He]; [auto|].
      destruct (matches q e) eqn:Me; [exfalso | reflexivity].
      rewrite Est in R, N.
      destruct (@in_readable _ d R) as [cd Sd];
        [apply in_or_app; right; left; reflexivity|].
      destruct (@in_readable _ e R) as [ce Se];
        [apply in_or_app; right; right; exact He|].
      unfold q in Hd, Me.
      rewrite (matches_id (VOid o) Sd) in Hd. apply value_eqb_eq in Hd.
      rewrite (matches_id (VOid o) Se) in Me. apply value_eqb_eq in Me.
      destruct (stores_inv Sd) as (? & id & ? & _ & _ & _ & Hid & _).
      destruct (stores_inv Se) as (? & ie & ? & _ & _ & _ & Hie & _).
      unfold index_key in Hd, Me. rewrite Hid in Hd. rewrite Hie in Me.
      rewrite map_app in N. cbn [map] in N. apply NoDup_remove_2 in N.
      apply N. apply in_or_app. right. apply in_map_iff. exists e.
      split; [|exact He]. congruence.
    - rewrite Sp. intros e He.
      destruct (matches q e) eqn:Me; [exfalso | reflexivity].
      destruct (split_first_found (matches q) st e He Me) as (? & ? & ? & C).
      congruence. }
  unfold delete_one, snd, bind, find_one. fold q.
  rewrite (proj2 (find_none_iff _ _) S). reflexivity.
Qed.

Lemma delete_by_id_then_get_witness :
  let c := mkConversation "bot" [mkMessage "user" "hi"] None in
  let st := run_call (CallCreate c) (run_call (CallCreate c) []) in
  written st /\
  exists st',
    MongoConversationRepository.delete_by_id "000000000000000000000001" st
    = (Ok tt, st')
    /\ MongoConversationRepository.get_by_id "000000000000000000000001" st'
       = (Raise (ValueError
                   "Conversation with id 000000000000000000000001 does not exist."),
          st').
Proof.
  intros c st.
  assert (W : written st) by (repeat constructor).
  split; [exact W|].
  exact (@delete_by_id_then_get st "000000000000000000000001" 1%N W eq_refl).
Defined.
